(** * seller.py: synchronising a vendor feed with the Ozon seller API

    A shallow embedding of [src/seller.py] and the properties of its
    row transforms, pagination loop, feed loader and orchestration.

    Conventions of the embedding.
    - A Python [str] is a Rocq [string] holding its well-formed UTF-8
      bytes.  The characters the program itself inspects are ASCII (['.'],
      the digits, the tokens [">10"] and ["1"]); every byte of a
      non-ASCII character is at least 128, so splitting at ['.'] and
      deleting non-digits act on the bytes exactly as they act on the
      code points.  Only [int] looks at non-ASCII characters, and its
      model decodes the bytes first.
    - A value read from a feed row is a [pyval]: a [str], an [int], a
      [float] or [None] (what [dict.get] returns for a missing key).
    - A Python exception is a constructor of [exn]; fallible code returns
      a [result]. *)

From Stdlib Require Import ZArith String Ascii List Bool Lia DecimalString DecimalZ.
From stdpp Require Import gmap strings list.
Import ListNotations.

Local Open Scope string_scope.
Local Open Scope Z_scope.
Local Open Scope list_scope.

(** ** Python values, exceptions and results *)

Inductive exn : Type :=
  | TypeError
  | ValueError
  | AttributeError
  | OverflowError
  | IndexError
  | FileNotFoundError
  | HTTPError
  | ReadTimeout
  | ConnectionError
  | BadZipFile
  | OtherError (msg : string).

Inductive result (A : Type) : Type :=
  | Ok (a : A)
  | Raise (e : exn).
Arguments Ok {A} a.
Arguments Raise {A} e.

Definition rbind {A B} (r : result A) (k : A -> result B) : result B :=
  match r with
  | Ok a => k a
  | Raise e => Raise e
  end.

Notation "'let*' x := r 'in' k" := (rbind r (fun x => k))
  (at level 10, x name, r at level 100, k at level 200).

(** A [float].  A finite one is given by the text [str] prints for it
    and by the integer [int] truncates it to. *)
Inductive pyfloat : Type :=
  | Finite (repr : string) (truncated : Z)
  | Infinity (negative : bool)
  | NaN.

Inductive pyval : Type :=
  | PNone
  | PStr (s : string)
  | PInt (z : Z)
  | PFloat (f : pyfloat).

(** [str(v)] *)
Definition py_str (v : pyval) : string :=
  match v with
  | PNone => "None"
  | PStr s => s
  | PInt z => NilZero.string_of_int (Z.to_int z)
  | PFloat (Finite repr _) => repr
  | PFloat (Infinity false) => "inf"
  | PFloat (Infinity true) => "-inf"
  | PFloat NaN => "nan"
  end.

(** ** Characters *)

Definition is_digit (c : ascii) : bool :=
  let n := nat_of_ascii c in (48 <=? n)%nat && (n <=? 57)%nat.

(** The ASCII whitespace [int] skips at both ends of its argument:
    tab, line feed, vertical tab, form feed, carriage return, space. *)
Definition is_space (c : ascii) : bool :=
  let n := nat_of_ascii c in
  ((9 <=? n)%nat && (n <=? 13)%nat) || (n =? 32)%nat.

Definition digit_val (c : ascii) : Z := Z.of_nat (nat_of_ascii c) - 48.

Fixpoint all_digits (s : string) : bool :=
  match s with
  | EmptyString => true
  | String c s' => is_digit c && all_digits s'
  end.

(** ** [price_conversion] *)

(** [s.split(sep)] for a one-character separator: the pieces between the
    occurrences of [sep], never an empty list. *)
Fixpoint str_split (sep : ascii) (s : string) : list string :=
  match s with
  | EmptyString => [EmptyString]
  | String c s' =>
      if Ascii.eqb c sep then EmptyString :: str_split sep s'
      else match str_split sep s' with
           | [] => [String c EmptyString]
           | piece :: pieces => String c piece :: pieces
           end
  end.

(** [v.split(".")]: only a [str] has the method. *)
Definition py_split (sep : ascii) (v : pyval) : result (list string) :=
  match v with
  | PStr s => Ok (str_split sep s)
  | _ => Raise AttributeError
  end.

(** [l[i]] *)
Definition py_index {A} (l : list A) (i : nat) : result A :=
  match nth_error l i with
  | Some a => Ok a
  | None => Raise IndexError
  end.

(** [re.sub("[^0-9]", "", s)]: every character outside the class [0-9]
    is a match and is replaced by the empty string. *)
Fixpoint re_sub_non_digits (s : string) : string :=
  match s with
  | EmptyString => EmptyString
  | String c s' =>
      if is_digit c then String c (re_sub_non_digits s')
      else re_sub_non_digits s'
  end.

Definition price_conversion (price : pyval) : result string :=
  let* pieces := py_split "." price in
  let* first := py_index pieces 0 in
  Ok (re_sub_non_digits first).

(** The rule in the words of the specification: cut the string at its
    first ['.'], then keep the digits. *)
Fixpoint truncate_at_first_dot (s : string) : string :=
  match s with
  | EmptyString => EmptyString
  | String c s' =>
      if Ascii.eqb c "." then EmptyString
      else String c (truncate_at_first_dot s')
  end.

Definition digits_of (s : string) : string :=
  string_of_list_ascii (List.filter is_digit (list_ascii_of_string s)).

Definition truncate_then_strip (s : string) : string :=
  digits_of (truncate_at_first_dot s).

(** ** [int] on the values of a feed row *)

(** The code points of a [str] held as UTF-8 bytes.  A byte sequence
    that is not UTF-8 gives the value 1114112, which is no code point. *)
Fixpoint code_points (s : list ascii) : list N :=
  let cont (b : ascii) : N := (N_of_ascii b - 128)%N in
  match s with
  | [] => []
  | b0 :: s1 =>
      let n0 := N_of_ascii b0 in
      if (n0 <? 128)%N then n0 :: code_points s1
      else if (n0 <? 192)%N then 1114112%N :: code_points s1
      else if (n0 <? 224)%N then
        match s1 with
        | b1 :: s2 => ((n0 - 192) * 64 + cont b1)%N :: code_points s2
        | _ => [1114112%N]
        end
      else if (n0 <? 240)%N then
        match s1 with
        | b1 :: b2 :: s3 =>
            (((n0 - 224) * 64 + cont b1) * 64 + cont b2)%N :: code_points s3
        | _ => [1114112%N]
        end
      else
        match s1 with
        | b1 :: b2 :: b3 :: s4 =>
            ((((n0 - 240) * 64 + cont b1) * 64 + cont b2) * 64 + cont b3)%N
            :: code_points s4
        | _ => [1114112%N]
        end
  end.

(** The non-ASCII characters Python counts as whitespace. *)
Definition unicode_space (cp : N) : bool :=
  List.existsb (N.eqb cp) [133; 160; 5760; 8232; 8233; 8239; 8287; 12288]%N
  || ((8192 <=? cp)%N && (cp <=? 8202)%N).

(** The non-ASCII decimal digits: each entry is the code point of the
    digit zero of a run of ten digits (Unicode 14.0, the character
    database of CPython 3.11). *)
Definition decimal_blocks : list N :=
  [
    1632; 1776; 1984; 2406; 2534; 2662; 2790; 2918; 3046; 3174; 3302;
    3430; 3558; 3664; 3792; 3872; 4160; 4240; 6112; 6160; 6470; 6608;
    6784; 6800; 6992; 7088; 7232; 7248; 42528; 43216; 43264; 43472; 43504;
    43600; 44016; 65296; 66720; 68912; 69734; 69872; 69942; 70096; 70384;
    70736; 70864; 71248; 71360; 71472; 71904; 72016; 72784; 73040; 73120;
    92768; 92864; 93008; 120782; 120792; 120802; 120812; 120822; 123200;
    123632; 125264; 130032
  ]%N.

Definition unicode_decimal (cp : N) : option N :=
  match List.find (fun zero => (zero <=? cp)%N && (cp <? zero + 10)%N)
          decimal_blocks with
  | Some zero => Some (cp - zero)%N
  | None => None
  end.

(** What [int] makes of one character before it parses: a character
    below 127 stays, non-ASCII whitespace becomes a space, a non-ASCII
    decimal digit becomes its ASCII digit, anything else is no part of
    a number. *)
Definition int_image (cp : N) : ascii :=
  if (cp <? 127)%N then ascii_of_N cp
  else if unicode_space cp then " "%char
  else match unicode_decimal cp with
       | Some d => ascii_of_N (48 + d)
       | None => "?"%char
       end.

Fixpoint lstrip (s : list ascii) : list ascii :=
  match s with
  | c :: s' => if is_space c then lstrip s' else s
  | [] => []
  end.

Definition strip (s : list ascii) : list ascii :=
  rev (lstrip (rev (lstrip s))).

(** A decimal literal: digits, with single underscores allowed between
    two digits.  [seen] tells whether the previous character was a digit. *)
Fixpoint digits_value (acc : Z) (seen : bool) (s : list ascii) : option Z :=
  match s with
  | [] => if seen then Some acc else None
  | c :: s' =>
      if is_digit c then digits_value (10 * acc + digit_val c) true s'
      else if Ascii.eqb c "_" then
        (if seen then digits_value acc false s' else None)
      else None
  end.

(** The parse of the ASCII image: surrounding whitespace is dropped, one
    sign is allowed, then come the digits. *)
Definition int_of_ascii (cs : list ascii) : option Z :=
  match strip cs with
  | "+"%char :: ds => digits_value 0 false ds
  | "-"%char :: ds => option_map Z.opp (digits_value 0 false ds)
  | ds => digits_value 0 false ds
  end.

(** [int(s)] for a [str], in base ten.  (The interpreter's configurable
    limit on the number of digits is not modelled.) *)
Definition int_of_string (s : string) : option Z :=
  int_of_ascii (int_image <$> code_points (list_ascii_of_string s)).

(** [int(v)] *)
Definition py_int (v : pyval) : result Z :=
  match v with
  | PNone => Raise TypeError
  | PInt z => Ok z
  | PStr s =>
      match int_of_string s with
      | Some z => Ok z
      | None => Raise ValueError
      end
  | PFloat (Finite _ truncated) => Ok truncated
  | PFloat (Infinity _) => Raise OverflowError
  | PFloat NaN => Raise ValueError
  end.

(** ** Feed rows and update records *)

(** A feed row is the dict pandas builds for one spreadsheet line. *)
Abbreviation row := (gmap string pyval).

(** [d.get(key)] *)
Definition dict_get (d : row) (key : string) : pyval :=
  default PNone (d !! key).

Definition feed_row (code quantity price : pyval) : row :=
  <["Код" := code]> (<["Количество" := quantity]> (<["Цена" := price]> ∅)).

Record stock_update : Type := {
  offer_id : string;
  stock : Z
}.

(** The key ["offer_id"] of a price record is the field [price_offer_id]. *)
Record price_update : Type := {
  auto_action_enabled : string;
  currency_code : string;
  price_offer_id : string;
  old_price : string;
  price : string
}.

(** [l.remove(x)]: drops the first occurrence, [ValueError] without one. *)
Fixpoint py_remove (x : string) (l : list string) : result (list string) :=
  match l with
  | [] => Raise ValueError
  | y :: l' =>
      if decide (x = y) then Ok l'
      else let* l'' := py_remove x l' in Ok (y :: l'')
  end.

(** ** [create_stocks] *)

(** The quantity rule of the loop body (lines 200-206). *)
Definition stock_of (quantity : pyval) : result Z :=
  let count := py_str quantity in
  if String.eqb count ">10" then Ok 100
  else if String.eqb count "1" then Ok 0
  else py_int quantity.

(** The first loop.  [stocks] is the local list under construction;
    [offer_ids] is the caller's list, mutated in place, so its value is
    returned on an exception as well. *)
Fixpoint stocks_loop (watch_remnants : list row) (stocks : list stock_update)
    (offer_ids : list string) : result (list stock_update) * list string :=
  match watch_remnants with
  | [] => (Ok stocks, offer_ids)
  | watch :: rest =>
      let code := py_str (dict_get watch "Код") in
      if decide (code ∈ offer_ids) then
        match stock_of (dict_get watch "Количество") with
        | Raise e => (Raise e, offer_ids)
        | Ok n =>
            match py_remove code offer_ids with
            | Raise e => (Raise e, offer_ids)
            | Ok offer_ids' =>
                stocks_loop rest
                  (stocks ++ [{| offer_id := code; stock := n |}]) offer_ids'
            end
        end
      else stocks_loop rest stocks offer_ids
  end.

Definition zero_stock (o : string) : stock_update :=
  {| offer_id := o; stock := 0 |}.

(** The result and the caller's [offer_ids] list after the call. *)
Definition create_stocks (watch_remnants : list row) (offer_ids : list string)
    : result (list stock_update) * list string :=
  match stocks_loop watch_remnants [] offer_ids with
  | (Ok stocks, offer_ids') => (Ok (stocks ++ map zero_stock offer_ids'), offer_ids')
  | (Raise e, offer_ids') => (Raise e, offer_ids')
  end.

(** ** [create_prices] *)

Fixpoint prices_loop (watch_remnants : list row) (prices : list price_update)
    (offer_ids : list string) : result (list price_update) :=
  match watch_remnants with
  | [] => Ok prices
  | watch :: rest =>
      if decide (py_str (dict_get watch "Код") ∈ offer_ids) then
        let* p := price_conversion (dict_get watch "Цена") in
        prices_loop rest
          (prices ++ [{| auto_action_enabled := "UNKNOWN";
                         currency_code := "RUB";
                         price_offer_id := py_str (dict_get watch "Код");
                         old_price := "0";
                         price := p |}])
          offer_ids
      else prices_loop rest prices offer_ids
  end.

Definition create_prices (watch_remnants : list row) (offer_ids : list string)
    : result (list price_update) :=
  prices_loop watch_remnants [] offer_ids.

(** ** [divide] *)

(** What a call hands back to [list(...)]: an iterable, or [None] when
    the body of the function ends without a [return] or a [yield]. *)
Inductive returned (A : Type) : Type :=
  | ReturnsNone
  | Yields (elements : list A).
Arguments ReturnsNone {A}.
Arguments Yields {A} elements.

(** [list(x)] *)
Definition py_list {A} (x : returned A) : result (list A) :=
  match x with
  | ReturnsNone => Raise TypeError
  | Yields l => Ok l
  end.

(** The body of [divide] (lines 273-291) is its docstring and nothing
    else, so every call returns [None]. *)
Definition divide {A} (lst : list A) (n : Z) : returned (list A) :=
  ReturnsNone.

(** The behaviour the docstring of [divide] and the specification
    describe: consecutive pieces of [n] elements, the last one possibly
    shorter.  [fuel] bounds the number of pieces. *)
Fixpoint chunks_fuel {A} (fuel : nat) (n : nat) (lst : list A) : list (list A) :=
  match fuel, lst with
  | O, _ => []
  | _, [] => []
  | S fuel', _ => take n lst :: chunks_fuel fuel' n (drop n lst)
  end.

Definition chunks {A} (n : nat) (lst : list A) : list (list A) :=
  chunks_fuel (length lst) n lst.

Definition divide_documented {A} (lst : list A) (n : Z) : returned (list A) :=
  Yields (chunks (Z.to_nat n) lst).

(** ** [get_offer_ids]: the pagination loop *)

Record product : Type := {
  product_id : Z;
  product_offer_id : string
}.

(** The ["result"] object of one answer of the product-list endpoint. *)
Record page : Type := {
  items : list product;
  total : Z;
  last_id : string
}.

(** [get_product_list]: what the endpoint answers to the call number
    [calls] (counted from 0) made with cursor [last_id], or the exception
    [raise_for_status] raises. *)
Definition endpoint : Type := nat -> string -> result page.

Record loop_state : Type := {
  calls : nat;
  cursor : string;
  product_list : list product
}.

Definition loop_start : loop_state :=
  {| calls := 0; cursor := ""; product_list := [] |}.

Inductive loop_status : Type :=
  | Running (st : loop_state)
  | Broke (products : list product)
  | Threw (e : exn).

(** One pass through the body of [while True] (lines 74-79). *)
Definition loop_body (get_product_list : endpoint) (st : loop_state) : loop_status :=
  match get_product_list (calls st) (cursor st) with
  | Raise e => Threw e
  | Ok some_prod =>
      let product_list' := product_list st ++ items some_prod in
      if total some_prod =? Z.of_nat (length product_list') then Broke product_list'
      else Running {| calls := S (calls st);
                      cursor := last_id some_prod;
                      product_list := product_list' |}
  end.

(** The loop after at most [n] passes, started in [st]. *)
Fixpoint loop_run (get_product_list : endpoint) (n : nat) (st : loop_state)
    : loop_status :=
  match n with
  | O => Running st
  | S n' =>
      match loop_body get_product_list st with
      | Running st' => loop_run get_product_list n' st'
      | done => done
      end
  end.

(** [get_offer_ids] within [fuel] passes of its loop; [None] when the
    loop is still running after that many passes. *)
Definition get_offer_ids (get_product_list : endpoint) (fuel : nat)
    : option (result (list string)) :=
  match loop_run get_product_list fuel loop_start with
  | Running _ => None
  | Broke products => Some (Ok (map product_offer_id products))
  | Threw e => Some (Raise e)
  end.

(** The accumulated count equals the reported total at the pass that
    starts in [st]. *)
Definition count_reaches_total (get_product_list : endpoint) (st : loop_state)
    : Prop :=
  exists some_prod,
    get_product_list (calls st) (cursor st) = Ok some_prod /\
    total some_prod = Z.of_nat (length (product_list st ++ items some_prod)).

(** The endpoint answers the pass that starts in [st], and the count
    differs from the total. *)
Definition count_misses_total (get_product_list : endpoint) (st : loop_state)
    : Prop :=
  exists some_prod,
    get_product_list (calls st) (cursor st) = Ok some_prod /\
    total some_prod <> Z.of_nat (length (product_list st ++ items some_prod)).

(** ** The world outside the process *)

(** The answers of the network and of the libraries the program calls. *)
Record world : Type := {
  (** [get_product_list] *)
  product_list_api : endpoint;
  (** [session.get(casio_url)] followed by [raise_for_status]: the body *)
  casio_get : result string;
  (** [zipfile.ZipFile(io.BytesIO(content))] and [extractall(".")]: from
      the body and the files of the working directory, the outcome and
      the files afterwards *)
  zip_extractall :
    string -> gmap string string -> result unit * gmap string string;
  (** [pd.read_excel(...).to_dict(orient="records")] on a file's content *)
  read_excel : string -> result (list row);
  (** the answers to [update_stocks] and [update_price] *)
  stocks_api : list stock_update -> result unit;
  prices_api : list price_update -> result unit
}.

Inductive event : Type :=
  | PostStocks (batch : list stock_update)
  | PostPrices (batch : list price_update)
  | Printed (msg : string).

(** The regular files of the working directory, by path, and the calls
    and messages sent so far. *)
Record state : Type := {
  files : gmap string string;
  trace : list event
}.

(** A statement sequence: it may raise, and what it did to the state
    before raising stays done. *)
Definition prog (A : Type) : Type := state -> result A * state.

Definition ret {A} (a : A) : prog A := fun st => (Ok a, st).

Definition pbind {A B} (c : prog A) (k : A -> prog B) : prog B :=
  fun st =>
    match c st with
    | (Ok a, st') => k a st'
    | (Raise e, st') => (Raise e, st')
    end.

Notation "'let+' x := c 'in' k" := (pbind c (fun x => k))
  (at level 10, x name, c at level 100, k at level 200).

Definition lift {A} (r : result A) : prog A := fun st => (r, st).

Definition emit (ev : event) : prog unit :=
  fun st => (Ok tt, {| files := files st; trace := trace st ++ [ev] |}).

Fixpoint for_each {A} (body : A -> prog unit) (l : list A) : prog unit :=
  match l with
  | [] => ret tt
  | a :: l' => let+ _ := body a in for_each body l'
  end.

(** ** [download_stock] *)

Definition excel_file : string := "ostatki.xls".

(** The [with] block of [download_stock]: what the zipfile library does
    to the working directory stays done when it raises. *)
Definition extractall (w : world) (content : string) : prog unit :=
  fun st =>
    let (outcome, fs) := zip_extractall w content (files st) in
    (outcome, {| files := fs; trace := trace st |}).

Definition open_file (name : string) : prog string :=
  fun st =>
    match files st !! name with
    | Some content => (Ok content, st)
    | None => (Raise FileNotFoundError, st)
    end.

(** [os.remove(name)] *)
Definition os_remove (name : string) : prog unit :=
  fun st =>
    match files st !! name with
    | Some _ => (Ok tt, {| files := delete name (files st); trace := trace st |})
    | None => (Raise FileNotFoundError, st)
    end.

Definition download_stock (w : world) : prog (list row) :=
  let+ content := lift (casio_get w) in
  let+ _ := extractall w content in
  let+ sheet := open_file excel_file in
  let+ watch_remnants := lift (read_excel w sheet) in
  let+ _ := os_remove excel_file in
  ret watch_remnants.

(** ** Uploads and [main] *)

Definition update_stocks (w : world) (stocks : list stock_update) : prog unit :=
  let+ _ := emit (PostStocks stocks) in lift (stocks_api w stocks).

Definition update_price (w : world) (prices : list price_update) : prog unit :=
  let+ _ := emit (PostPrices prices) in lift (prices_api w prices).

(** [create_stocks] as a statement: the result, and the list it leaves
    in the caller's variable. *)
Definition call_create_stocks (watch_remnants : list row) (offer_ids : list string)
    : prog (list stock_update * list string) :=
  match create_stocks watch_remnants offer_ids with
  | (Ok stocks, offer_ids') => ret (stocks, offer_ids')
  | (Raise e, _) => lift (Raise e)
  end.

(** The three [except] clauses of [main]: the fixed text each one
    prints (the text of the exception itself is left out). *)
Definition handler_message (e : exn) : string :=
  match e with
  | ReadTimeout => "Превышено время ожидания..."
  | ConnectionError => "Ошибка соединения"
  | _ => "ERROR_2"
  end.

Definition try_except (body : prog unit) : state -> state :=
  fun st =>
    match body st with
    | (Ok _, st') => st'
    | (Raise e, st') => snd (emit (Printed (handler_message e)) st')
    end.

Section Orchestration.

(** The function called under the name [divide]. *)
Variable divide_impl : forall A : Type, list A -> Z -> returned (list A).

(** Lines 316-324, with [offer_ids] already fetched. *)
Definition main_flows (w : world) (offer_ids : list string) : prog unit :=
  let+ watch_remnants := download_stock w in
  let+ made := call_create_stocks watch_remnants offer_ids in
  let+ stock_batches := lift (py_list (divide_impl _ (fst made) 100)) in
  let+ _ := for_each (update_stocks w) stock_batches in
  let+ prices := lift (create_prices watch_remnants (snd made)) in
  let+ price_batches := lift (py_list (divide_impl _ prices 900)) in
  for_each (update_price w) price_batches.

(** [main]; [None] when the pagination loop is still running after
    [fuel] passes. *)
Definition main_with (w : world) (fuel : nat) (st : state) : option state :=
  match get_offer_ids (product_list_api w) fuel with
  | None => None
  | Some fetched =>
      Some (try_except (let+ offer_ids := lift fetched in main_flows w offer_ids) st)
  end.

(** [upload_prices]: its own fetch, then transform and upload. *)
Definition upload_prices_with (w : world) (fuel : nat) (watch_remnants : list row)
    : option (prog (list price_update)) :=
  match get_offer_ids (product_list_api w) fuel with
  | None => None
  | Some fetched =>
      Some (let+ offer_ids := lift fetched in
            let+ prices := lift (create_prices watch_remnants offer_ids) in
            let+ batches := lift (py_list (divide_impl _ prices 1000)) in
            let+ _ := for_each (update_price w) batches in
            ret prices)
  end.

(** [upload_stocks]: its own fetch; returns the records with a stock
    and all the records. *)
Definition upload_stocks_with (w : world) (fuel : nat) (watch_remnants : list row)
    : option (prog (list stock_update * list stock_update)) :=
  match get_offer_ids (product_list_api w) fuel with
  | None => None
  | Some fetched =>
      Some (let+ offer_ids := lift fetched in
            let+ made := call_create_stocks watch_remnants offer_ids in
            let+ batches := lift (py_list (divide_impl _ (fst made) 100)) in
            let+ _ := for_each (update_stocks w) batches in
            ret (filter (fun s => stock s <> 0) (fst made), fst made))
  end.

End Orchestration.

Definition main : world -> nat -> state -> option state :=
  main_with (@divide).

Definition upload_prices : world -> nat -> list row -> option (prog (list price_update)) :=
  upload_prices_with (@divide).

Definition upload_stocks
    : world -> nat -> list row -> option (prog (list stock_update * list stock_update)) :=
  upload_stocks_with (@divide).

(** The events a run added to the trace that are price uploads. *)
Definition price_posts (tr : list event) : list (list price_update) :=
  omap (fun ev => match ev with PostPrices b => Some b | _ => None end) tr.

Definition one_page (ids : list string) : endpoint :=
  fun _ _ => Ok {| items := map (fun o => {| product_id := 0; product_offer_id := o |}) ids;
                   total := Z.of_nat (length ids);
                   last_id := "" |}.

Definition demo_world (ids : list string) (rows : list row) : world :=
  {| product_list_api := one_page ids;
     casio_get := Ok "zip";
     zip_extractall := fun _ fs => (Ok tt, <["ostatki.xls" := "sheet"]> fs);
     read_excel := fun _ => Ok rows;
     stocks_api := fun _ => Ok tt;
     prices_api := fun _ => Ok tt |}.

Definition empty_state : state := {| files := ∅; trace := [] |}.

(** ** Vocabulary of the statements *)

Definition code_of (watch : row) : string := py_str (dict_get watch "Код").

Definition quantity_of (watch : row) : pyval := dict_get watch "Количество".

(** The first feed row carrying the code [o]. *)
Definition first_match (o : string) (watch_remnants : list row) : option row :=
  List.find (fun watch => String.eqb (code_of watch) o) watch_remnants.

(** [p] is the price record the loop body builds from [watch]. *)
Definition price_record_of (watch : row) (p : price_update) : Prop :=
  auto_action_enabled p = "UNKNOWN" /\
  currency_code p = "RUB" /\
  price_offer_id p = code_of watch /\
  old_price p = "0" /\
  exists s, dict_get watch "Цена" = PStr s /\ price p = truncate_then_strip s.

(** An endpoint whose cursor does not advance: every call returns the
    same two products and reports three. *)
Definition stuck_endpoint : endpoint :=
  fun _ _ =>
    Ok {| items := [ {| product_id := 1; product_offer_id := "a" |};
                     {| product_id := 2; product_offer_id := "b" |} ];
          total := 3;
          last_id := "" |}.

(** An endpoint that returns the same one-product page to every call
    and reports two products. *)
Definition repeating_endpoint : endpoint :=
  fun _ _ =>
    Ok {| items := [ {| product_id := 1; product_offer_id := "a" |} ];
          total := 2;
          last_id := "" |}.

Definition demo_feed : list row :=
  [feed_row (PStr "123") (PStr "5") (PStr "5990")].

(** A world whose archive holds a sheet pandas cannot parse. *)
Definition bad_sheet_world : world :=
  {| product_list_api := one_page ["123"];
     casio_get := Ok "zip";
     zip_extractall := fun _ fs =>
       (Ok tt, <["ostatki.xls" := "garbage"]> (<["readme.txt" := "notes"]> fs));
     read_excel := fun _ => Raise (OtherError "unsupported format");
     stocks_api := fun _ => Ok tt;
     prices_api := fun _ => Ok tt |}.

(** The answers a run of the pagination loop receives, call after call:
    call number [k] is made with cursor [c], and each later call with the
    [last_id] of the answer before it. *)
Fixpoint answered (api : endpoint) (k : nat) (c : string) (pages : list page)
    : Prop :=
  match pages with
  | [] => True
  | pg :: rest => api k c = Ok pg /\ answered api (S k) (last_id pg) rest
  end.

(** The offer_ids of the products of a sequence of pages, in order. *)
Definition offer_ids_of (pages : list page) : list string :=
  product_offer_id <$> concat (items <$> pages).

(** An endpoint with two pages: the first call gets products "a" and
    "b", the call made with the cursor "p2" gets "c". *)
Definition two_page_endpoint : endpoint :=
  fun _ c =>
    if String.eqb c "" then
      Ok {| items := [ {| product_id := 1; product_offer_id := "a" |};
                       {| product_id := 2; product_offer_id := "b" |} ];
            total := 3;
            last_id := "p2" |}
    else if String.eqb c "p2" then
      Ok {| items := [ {| product_id := 3; product_offer_id := "c" |} ];
            total := 3;
            last_id := "" |}
    else Raise HTTPError.


(** * Properties *)

(** ** [price_conversion] *)

Lemma str_split_first (s : string) :
  exists pieces, str_split "." s = truncate_at_first_dot s :: pieces.
Proof.
  induction s as [|c s [pieces IH]]; simpl.
  - by exists [].
  - destruct (Ascii.eqb c "."); [by eexists|].
    rewrite IH. by eexists.
Qed.

Lemma re_sub_non_digits_digits_of (s : string) :
  re_sub_non_digits s = digits_of s.
Proof.
  unfold digits_of. induction s as [|c s IH]; simpl; [done|].
  destruct (is_digit c); simpl; by rewrite IH.
Qed.

Lemma re_sub_non_digits_all_digits (s : string) :
  all_digits (re_sub_non_digits s) = true.
Proof.
  induction s as [|c s IH]; simpl; [done|].
  destruct (is_digit c) eqn:Hc; simpl; [by rewrite Hc|done].
Qed.

Lemma price_conversion_str (s : string) :
  price_conversion (PStr s) = Ok (truncate_then_strip s).
Proof.
  unfold price_conversion, truncate_then_strip; simpl.
  destruct (str_split_first s) as [pieces ->]; simpl.
  by rewrite re_sub_non_digits_digits_of.
Qed.

Lemma price_conversion_not_str (v : pyval) :
  (forall s, v <> PStr s) -> price_conversion v = Raise AttributeError.
Proof. destruct v; intros H; [done| by destruct (H s) |done|done]. Qed.

(** C6. For every string, [price_conversion] returns the string cut at
    its first ['.'] with the non-digits then removed; the three prices of
    the specification convert to "5990", "1" and "1234". *)
Theorem price_conversion_truncates_then_strips :
  (forall s : string, price_conversion (PStr s) = Ok (truncate_then_strip s)) /\
  price_conversion (PStr "5'990.00 руб.") = Ok "5990" /\
  price_conversion (PStr "1.250,50 USD") = Ok "1" /\
  price_conversion (PStr "€ 1234.56") = Ok "1234".
Proof.
  split; [exact price_conversion_str|].
  repeat split; reflexivity.
Qed.

(** C10. On every string [price_conversion] returns a string of digits,
    possibly empty, and raises nothing; a string with no digit before its
    first ['.'] gives the empty string. *)
Theorem price_conversion_total_on_strings :
  (forall s : string,
      exists d, price_conversion (PStr s) = Ok d /\ all_digits d = true) /\
  price_conversion (PStr "руб.") = Ok "" /\
  price_conversion (PStr "") = Ok "" /\
  price_conversion (PStr ".99") = Ok "".
Proof.
  split.
  - intros s. unfold price_conversion; simpl.
    destruct (str_split_first s) as [pieces ->]; simpl.
    eexists; split; [reflexivity|]. apply re_sub_non_digits_all_digits.
  - repeat split; reflexivity.
Qed.

(** ** [create_prices] *)

Lemma prices_loop_spec (offer_ids : list string) (watch_remnants : list row) :
  forall prices,
    (forall watch, watch ∈ watch_remnants -> code_of watch ∈ offer_ids ->
                   exists s, dict_get watch "Цена" = PStr s) ->
    exists new,
      prices_loop watch_remnants prices offer_ids = Ok (prices ++ new) /\
      Forall2 price_record_of
        (filter (fun watch => code_of watch ∈ offer_ids) watch_remnants) new.
Proof.
  induction watch_remnants as [|watch rest IH]; intros prices Hstr; simpl.
  - exists []. split; [by rewrite app_nil_r | constructor].
  - fold (code_of watch).
    destruct (decide (code_of watch ∈ offer_ids)) as [Hin|Hout].
    + destruct (Hstr watch) as [s Hs]; [left | done |].
      rewrite Hs, price_conversion_str; simpl.
      edestruct IH as (new & -> & Hnew).
      { intros w Hw. apply Hstr. by right. }
      eexists (_ :: new). split; [by rewrite <- app_assoc|].
      rewrite filter_cons_True by done.
      constructor; [|done].
      repeat split; simpl; try done. by exists s.
    + rewrite filter_cons_False by done.
      apply IH. intros w Hw. apply Hstr. by right.
Qed.

Lemma prices_loop_no_match (offer_ids : list string) (watch_remnants : list row) :
  forall prices,
    (forall watch, watch ∈ watch_remnants -> code_of watch ∉ offer_ids) ->
    prices_loop watch_remnants prices offer_ids = Ok prices.
Proof.
  induction watch_remnants as [|watch rest IH]; intros prices Hno; simpl; [done|].
  fold (code_of watch).
  destruct (decide (code_of watch ∈ offer_ids)) as [Hin|Hout].
  - destruct (Hno watch); [left | done].
  - apply IH. intros w Hw. apply Hno. by right.
Qed.

(** C3. [create_prices] returns, in feed order, one record for each feed
    row whose code (as a string) is in the offer_id list, with
    auto_action_enabled "UNKNOWN", currency_code "RUB", old_price "0",
    offer_id the row's code and price the digit-only conversion of the
    row's price string; the other rows give no record. *)
Theorem create_prices_one_record_per_matching_row
    (watch_remnants : list row) (offer_ids : list string) :
  (forall watch, watch ∈ watch_remnants -> code_of watch ∈ offer_ids ->
                 exists s, dict_get watch "Цена" = PStr s) ->
  exists prices,
    create_prices watch_remnants offer_ids = Ok prices /\
    Forall2 price_record_of
      (filter (fun watch => code_of watch ∈ offer_ids) watch_remnants) prices.
Proof.
  intros Hstr. unfold create_prices.
  destruct (prices_loop_spec offer_ids watch_remnants [] Hstr) as (new & Hrun & Hnew).
  exists new. by split.
Qed.

Lemma create_prices_one_record_per_matching_row_witness :
  exists prices,
    create_prices
      [feed_row (PInt 123) (PStr ">10") (PStr "5'990.00 руб.");
       feed_row (PStr "77") (PStr "3") (PInt 100);
       feed_row (PStr "a") (PStr "1") (PStr "12.5")]
      ["a"; "123"] = Ok prices /\
    length prices = 2%nat.
Proof.
  destruct (create_prices_one_record_per_matching_row
              [feed_row (PInt 123) (PStr ">10") (PStr "5'990.00 руб.");
               feed_row (PStr "77") (PStr "3") (PInt 100);
               feed_row (PStr "a") (PStr "1") (PStr "12.5")]
              ["a"; "123"]) as (prices & Hrun & Hrec).
  - intros watch Hin Hcode.
    apply list_elem_of_In in Hin. simpl in Hin.
    destruct Hin as [<-|[<-|[<-|[]]]].
    + by eexists.
    + exfalso. apply list_elem_of_In in Hcode. vm_compute in Hcode.
      destruct Hcode as [Hcode|[Hcode|[]]]; discriminate Hcode.
    + by eexists.
  - exists prices. split; [done|].
    apply Forall2_length in Hrec. rewrite <- Hrec. reflexivity.
Defined.

(** ** [create_stocks] *)

Lemma filter_all_true {A} (P : A -> Prop) `{!forall x, Decision (P x)} (l : list A) :
  (forall x, x ∈ l -> P x) -> filter P l = l.
Proof.
  induction l as [|a l IH]; intros HP; [done|].
  rewrite filter_cons_True by (apply HP; left).
  f_equal. apply IH. intros x Hx. apply HP. by right.
Qed.

Lemma filter_all_false {A} (P : A -> Prop) `{!forall x, Decision (P x)} (l : list A) :
  (forall x, x ∈ l -> ~ P x) -> filter P l = [].
Proof.
  induction l as [|a l IH]; intros HP; [done|].
  rewrite filter_cons_False by (apply HP; left).
  apply IH. intros x Hx. apply HP. by right.
Qed.

Lemma filter_agree {A} (P Q : A -> Prop)
    `{!forall x, Decision (P x), !forall x, Decision (Q x)} (l : list A) :
  (forall x, x ∈ l -> P x <-> Q x) -> filter P l = filter Q l.
Proof.
  induction l as [|a l IH]; intros HPQ; [done|].
  assert (filter P l = filter Q l) as Hl.
  { apply IH. intros x Hx. apply HPQ. by right. }
  destruct (decide (P a)) as [Ha|Ha].
  - rewrite !filter_cons_True; [by f_equal | by apply HPQ; [left|] | done].
  - rewrite !filter_cons_False; [done | | done].
    intros HQ. apply Ha, HPQ; [left | done].
Qed.

Lemma filter_unique_key {A} (key : A -> string) (l : list A) (r : A) :
  NoDup (key <$> l) -> r ∈ l -> filter (fun x => key x = key r) l = [r].
Proof.
  induction l as [|a l IH]; intros Hnd Hin; [by apply elem_of_nil in Hin|].
  rewrite fmap_cons in Hnd. apply NoDup_cons in Hnd as [Ha Hnd].
  apply elem_of_cons in Hin as [->|Hin].
  - rewrite filter_cons_True by done. f_equal.
    apply filter_all_false. intros x Hx Heq. apply Ha.
    rewrite <- Heq. apply list_elem_of_fmap. by exists x.
  - rewrite filter_cons_False; [by apply IH|].
    intros Heq. apply Ha. rewrite Heq. apply list_elem_of_fmap. by exists r.
Qed.

Lemma py_remove_elem_of (x : string) (l : list string) :
  x ∈ l -> exists l', py_remove x l = Ok l'.
Proof.
  induction l as [|y l IH]; intros Hin; [by apply elem_of_nil in Hin|].
  simpl. destruct (decide (x = y)) as [->|Hne]; [by eexists|].
  apply elem_of_cons in Hin as [->|Hin]; [done|].
  destruct (IH Hin) as [l' ->]. by eexists.
Qed.

Lemma py_remove_perm (x : string) (l l' : list string) :
  py_remove x l = Ok l' -> l ≡ₚ x :: l'.
Proof.
  revert l'. induction l as [|y l IH]; intros l' Hrm; simpl in Hrm; [done|].
  destruct (decide (x = y)) as [->|Hne]; [by inversion Hrm|].
  destruct (py_remove x l) as [l''|e] eqn:Hl; simpl in Hrm; [|done].
  inversion Hrm; subst. rewrite (IH l'' eq_refl). apply Permutation_swap.
Qed.

Lemma py_remove_NoDup (x : string) (l l' : list string) :
  NoDup l -> py_remove x l = Ok l' -> l' = filter (fun y => y <> x) l.
Proof.
  revert l'. induction l as [|y l IH]; intros l' Hnd Hrm; simpl in Hrm; [done|].
  apply NoDup_cons in Hnd as [Hy Hnd].
  destruct (decide (x = y)) as [->|Hne].
  - inversion Hrm; subst. rewrite filter_cons_False by (intros H; by apply H).
    symmetry. apply filter_all_true. intros z Hz ->. done.
  - destruct (py_remove x l) as [l''|e] eqn:Hl; simpl in Hrm; [|done].
    inversion Hrm; subst. rewrite filter_cons_True by (intros ->; done).
    f_equal. by apply IH.
Qed.

Lemma stocks_loop_app (l1 l2 : list row) :
  forall stocks offer_ids,
    stocks_loop (l1 ++ l2) stocks offer_ids =
    match stocks_loop l1 stocks offer_ids with
    | (Ok stocks1, offer_ids1) => stocks_loop l2 stocks1 offer_ids1
    | (Raise e, offer_ids1) => (Raise e, offer_ids1)
    end.
Proof.
  induction l1 as [|watch l1 IH]; intros stocks offer_ids; simpl; [done|].
  destruct (decide (py_str (dict_get watch "Код") ∈ offer_ids)); [|apply IH].
  destruct (stock_of _); [|done].
  destruct (py_remove _ _); [apply IH|done].
Qed.

(** The loop only appends, and every record it appends takes its
    offer_id out of the list: records and remaining ids together are the
    ids the call started with. *)
Lemma stocks_loop_perm (watch_remnants : list row) :
  forall stocks offer_ids out offer_ids',
    stocks_loop watch_remnants stocks offer_ids = (Ok out, offer_ids') ->
    exists new,
      out = stocks ++ new /\ (offer_id <$> new) ++ offer_ids' ≡ₚ offer_ids.
Proof.
  induction watch_remnants as [|watch rest IH];
    intros stocks offer_ids out offer_ids' Hrun; simpl in Hrun.
  - inversion Hrun; subst. exists []. by rewrite app_nil_r.
  - destruct (decide (py_str (dict_get watch "Код") ∈ offer_ids)) as [Hin|Hout];
      [|by apply IH].
    destruct (stock_of _) as [n|e]; [|done].
    destruct (py_remove _ offer_ids) as [ids1|e] eqn:Hrm; [|done].
    apply IH in Hrun as (new & -> & Hperm).
    eexists (_ :: new). split; [by rewrite <- app_assoc|].
    rewrite fmap_cons; simpl. rewrite Hperm.
    symmetry. by apply py_remove_perm.
Qed.

Lemma first_match_cons (o : string) (watch : row) (rest : list row) :
  first_match o (watch :: rest) =
  if decide (code_of watch = o) then Some watch else first_match o rest.
Proof.
  unfold first_match; simpl.
  destruct (String.eqb_spec (code_of watch) o), (decide (code_of watch = o)); done.
Qed.

Lemma first_match_None (o : string) (watch_remnants : list row) :
  first_match o watch_remnants = None <-> o ∉ code_of <$> watch_remnants.
Proof.
  induction watch_remnants as [|watch rest IH].
  - split; [intros _; apply not_elem_of_nil | done].
  - rewrite first_match_cons, fmap_cons, not_elem_of_cons.
    destruct (decide (code_of watch = o)) as [Heq|Hne].
    + split; [done | by intros [[] _]].
    + rewrite IH. split; [intros H; split; [congruence | done] | by intros [_ H]].
Qed.

(** With a duplicate-free list the loop leaves exactly the ids no feed
    row carries, and the record of a carried id comes from the first row
    that carries it. *)
Lemma stocks_loop_NoDup (watch_remnants : list row) :
  forall stocks offer_ids out offer_ids',
    NoDup offer_ids ->
    stocks_loop watch_remnants stocks offer_ids = (Ok out, offer_ids') ->
    exists new,
      out = stocks ++ new /\
      offer_ids' = filter (fun o => o ∉ code_of <$> watch_remnants) offer_ids /\
      forall o watch,
        o ∈ offer_ids -> first_match o watch_remnants = Some watch ->
        exists n, stock_of (quantity_of watch) = Ok n /\
                  {| offer_id := o; stock := n |} ∈ new.
Proof.
  induction watch_remnants as [|watch rest IH];
    intros stocks offer_ids out offer_ids' Hnd Hrun; simpl in Hrun.
  - inversion Hrun; subst. exists []. rewrite app_nil_r.
    split; [done|]. split; [|done].
    symmetry. apply filter_all_true. intros o _. apply not_elem_of_nil.
  - fold (code_of watch) in Hrun. fold (quantity_of watch) in Hrun.
    destruct (decide (code_of watch ∈ offer_ids)) as [Hin|Hout].
    + destruct (stock_of (quantity_of watch)) as [n|e] eqn:Hn; [|done].
      destruct (py_remove _ offer_ids) as [ids1|e] eqn:Hrm; [|done].
      apply py_remove_NoDup in Hrm; [|done].
      apply IH in Hrun as (new & -> & Hids & Hfirst);
        [|rewrite Hrm; by apply NoDup_filter].
      eexists (_ :: new). split; [by rewrite <- app_assoc|]. split.
      * rewrite Hids, Hrm, list_filter_filter.
        apply list_filter_iff. intros o.
        rewrite fmap_cons, not_elem_of_cons. tauto.
      * intros o w Ho Hw. rewrite first_match_cons in Hw.
        destruct (decide (code_of watch = o)) as [<-|Hne].
        -- inversion Hw; subst. exists n. split; [done | left].
        -- destruct (Hfirst o w) as (m & Hm & Hrec); [|done|].
           ++ rewrite Hrm. apply list_elem_of_filter. split; [congruence | done].
           ++ exists m. split; [done | by right].
    + apply IH in Hrun as (new & -> & Hids & Hfirst); [|done].
      exists new. split; [done|]. split.
      * rewrite Hids. apply filter_agree. intros o Ho.
        rewrite fmap_cons, not_elem_of_cons.
        split; [intros H; split; [congruence | done] | by intros [_ H]].
      * intros o w Ho Hw. rewrite first_match_cons in Hw.
        destruct (decide (code_of watch = o)) as [<-|Hne]; [done|].
        by apply Hfirst.
Qed.

(** The loop returns when every quantity is one the rule accepts. *)
Lemma stocks_loop_returns (watch_remnants : list row) :
  forall stocks offer_ids,
    (forall watch, watch ∈ watch_remnants ->
                   exists n, stock_of (quantity_of watch) = Ok n) ->
    exists out offer_ids',
      stocks_loop watch_remnants stocks offer_ids = (Ok out, offer_ids').
Proof.
  induction watch_remnants as [|watch rest IH]; intros stocks offer_ids Hq; simpl.
  - by eexists _, _.
  - fold (code_of watch). fold (quantity_of watch).
    assert (forall w, w ∈ rest -> exists n, stock_of (quantity_of w) = Ok n) as Hrest.
    { intros w Hw. apply Hq. by right. }
    destruct (decide (code_of watch ∈ offer_ids)) as [Hin|Hout]; [|by apply IH].
    destruct (Hq watch) as [n ->]; [left|].
    destruct (py_remove_elem_of _ _ Hin) as [ids1 ->].
    by apply IH.
Qed.

(** C4. When the loop of [create_stocks] comes to a feed row whose code
    is among the remaining offer_ids, the quantity string ">10" gives
    stock 100, the string "1" gives stock 0, and any other quantity gives
    its integer parse; that value is the stock of the record the call
    returns for the row, and a quantity with no integer parse makes the
    call raise. *)
Theorem create_stocks_quantity_rule
    (before after : list row) (watch : row)
    (offer_ids remaining : list string) (stocks : list stock_update) :
  stocks_loop before [] offer_ids = (Ok stocks, remaining) ->
  code_of watch ∈ remaining ->
  (py_str (quantity_of watch) = ">10" -> stock_of (quantity_of watch) = Ok 100) /\
  (py_str (quantity_of watch) = "1" -> stock_of (quantity_of watch) = Ok 0) /\
  (py_str (quantity_of watch) <> ">10" -> py_str (quantity_of watch) <> "1" ->
   stock_of (quantity_of watch) = py_int (quantity_of watch)) /\
  (forall out offer_ids',
      create_stocks (before ++ watch :: after) offer_ids = (Ok out, offer_ids') ->
      exists n, stock_of (quantity_of watch) = Ok n /\
                out !! length stocks = Some {| offer_id := code_of watch; stock := n |}) /\
  (forall n, stock_of (quantity_of watch) = Ok n ->
      exists out offer_ids',
        create_stocks (before ++ [watch]) offer_ids = (Ok out, offer_ids') /\
        out !! length stocks = Some {| offer_id := code_of watch; stock := n |}) /\
  (forall e, stock_of (quantity_of watch) = Raise e ->
      create_stocks (before ++ watch :: after) offer_ids = (Raise e, remaining)).
Proof.
  intros Hbefore Hin.
  assert (forall rest,
             stocks_loop (before ++ watch :: rest) [] offer_ids =
             match stock_of (quantity_of watch) with
             | Raise e => (Raise e, remaining)
             | Ok n =>
                 match py_remove (code_of watch) remaining with
                 | Raise e => (Raise e, remaining)
                 | Ok ids1 =>
                     stocks_loop rest
                       (stocks ++ [{| offer_id := code_of watch; stock := n |}]) ids1
                 end
             end) as Hstep.
  { intros rest. rewrite stocks_loop_app, Hbefore. simpl.
    fold (code_of watch). fold (quantity_of watch).
    by rewrite decide_True. }
  destruct (py_remove_elem_of _ _ Hin) as [ids1 Hrm].
  repeat split.
  - intros Hq. unfold stock_of. by rewrite Hq.
  - intros Hq. unfold stock_of. by rewrite Hq.
  - intros H10 H1. unfold stock_of.
    destruct (String.eqb_spec (py_str (quantity_of watch)) ">10"); [done|].
    by destruct (String.eqb_spec (py_str (quantity_of watch)) "1").
  - intros out offer_ids' Hrun. unfold create_stocks in Hrun.
    rewrite Hstep, Hrm in Hrun.
    destruct (stock_of (quantity_of watch)) as [n|e]; [|done].
    exists n. split; [done|].
    destruct (stocks_loop after _ ids1) as [[out0|e] ids2] eqn:Hafter; [|done].
    apply stocks_loop_perm in Hafter as (new & -> & _).
    inversion Hrun; subst.
    rewrite <- !app_assoc. simpl.
    by rewrite list_lookup_middle.
  - intros n Hn. unfold create_stocks.
    rewrite Hstep, Hn, Hrm. simpl. eexists _, _. split; [done|].
    rewrite <- !app_assoc. simpl.
    by rewrite list_lookup_middle.
  - intros e He. unfold create_stocks. by rewrite Hstep, He.
Qed.

Lemma create_stocks_quantity_rule_witness :
  stock_of (quantity_of (feed_row (PStr "a") (PStr ">10") (PStr "1'200.00"))) = Ok 100 /\
  exists out offer_ids',
    create_stocks
      [feed_row (PStr "b") (PStr "7") (PStr "10");
       feed_row (PStr "a") (PStr ">10") (PStr "1'200.00")]
      ["a"; "b"; "c"] = (Ok out, offer_ids') /\
    out !! 1%nat = Some {| offer_id := "a"; stock := 100 |}.
Proof.
  destruct (create_stocks_quantity_rule
              [feed_row (PStr "b") (PStr "7") (PStr "10")]
              []
              (feed_row (PStr "a") (PStr ">10") (PStr "1'200.00"))
              ["a"; "b"; "c"] ["a"; "c"]
              [{| offer_id := "b"; stock := 7 |}])
    as (H10 & _ & _ & _ & Hret & _).
  - vm_compute. reflexivity.
  - apply (bool_decide_unpack _). vm_compute. exact I.
  - split; [apply H10; reflexivity|].
    apply Hret. apply H10. reflexivity.
Defined.

Lemma offer_id_zero_stock (l : list string) :
  offer_id <$> map zero_stock l = l.
Proof. induction l as [|o l IH]; [done | simpl; f_equal; exact IH]. Qed.

(** C5. For a duplicate-free catalog list, the list [create_stocks]
    returns holds each catalog offer_id exactly once (its offer_ids are a
    rearrangement of the catalog list): with the stock derived from the
    first feed row carrying that code, or with stock 0 when no row carries
    it.  The call returns whenever every quantity of the feed is one the
    stock rule accepts. *)
Theorem create_stocks_each_offer_id_once
    (watch_remnants : list row) (offer_ids : list string) :
  NoDup offer_ids ->
  ((forall watch, watch ∈ watch_remnants ->
                  exists n, stock_of (quantity_of watch) = Ok n) ->
   exists out offer_ids',
     create_stocks watch_remnants offer_ids = (Ok out, offer_ids')) /\
  (forall out offer_ids',
      create_stocks watch_remnants offer_ids = (Ok out, offer_ids') ->
      offer_id <$> out ≡ₚ offer_ids /\
      forall o, o ∈ offer_ids ->
        exists n,
          filter (fun r => offer_id r = o) out = [{| offer_id := o; stock := n |}] /\
          match first_match o watch_remnants with
          | Some watch => stock_of (quantity_of watch) = Ok n
          | None => n = 0
          end).
Proof.
  intros Hnd. split.
  - intros Hq. unfold create_stocks.
    destruct (stocks_loop_returns watch_remnants [] offer_ids Hq) as (out & ids' & ->).
    by eexists _, _.
  - intros out offer_ids' Hrun. unfold create_stocks in Hrun.
    destruct (stocks_loop watch_remnants [] offer_ids) as [[new|e] ids'] eqn:Hloop;
      [|done].
    inversion Hrun; subst. clear Hrun.
    pose proof (stocks_loop_perm _ _ _ _ _ Hloop) as (new' & Heq & Hperm).
    simpl in Heq. subst new'.
    apply stocks_loop_NoDup in Hloop as (new' & Heq & Hids & Hfirst); [|done].
    simpl in Heq. subst new'.
    assert (offer_id <$> new ++ map zero_stock offer_ids' ≡ₚ offer_ids) as Hout.
    { rewrite fmap_app, offer_id_zero_stock. exact Hperm. }
    split; [done|].
    intros o Ho.
    assert (forall n, {| offer_id := o; stock := n |} ∈ new ++ map zero_stock offer_ids' ->
                      filter (fun r => offer_id r = o) (new ++ map zero_stock offer_ids')
                      = [{| offer_id := o; stock := n |}]) as Honce.
    { intros n Hin.
      apply (filter_unique_key offer_id _ {| offer_id := o; stock := n |});
        [by rewrite Hout | done]. }
    destruct (first_match o watch_remnants) as [watch|] eqn:Hfm.
    + destruct (Hfirst o watch Ho Hfm) as (n & Hn & Hin).
      exists n. split; [|done].
      apply Honce, elem_of_app. by left.
    + exists 0. split; [|done].
      apply Honce, elem_of_app. right.
      apply list_elem_of_In, in_map_iff. exists o. split; [done|].
      apply list_elem_of_In. rewrite Hids.
      apply list_elem_of_filter. split; [by apply first_match_None | done].
Qed.

Lemma create_stocks_each_offer_id_once_witness :
  create_stocks
    [feed_row (PStr "a") (PStr "4") (PStr "10");
     feed_row (PStr "a") (PStr "oops") (PStr "10");
     feed_row (PInt 7) (PStr ">10") (PStr "10")]
    ["7"; "a"; "z"]
  = (Ok [{| offer_id := "a"; stock := 4 |};
         {| offer_id := "7"; stock := 100 |};
         {| offer_id := "z"; stock := 0 |}], ["z"]) /\
  ["a"; "7"; "z"] ≡ₚ ["7"; "a"; "z"].
Proof.
  assert (NoDup ["7"; "a"; "z"]) as Hnd.
  { apply (bool_decide_unpack _). vm_compute. exact I. }
  assert (create_stocks
            [feed_row (PStr "a") (PStr "4") (PStr "10");
             feed_row (PStr "a") (PStr "oops") (PStr "10");
             feed_row (PInt 7) (PStr ">10") (PStr "10")]
            ["7"; "a"; "z"]
          = (Ok [{| offer_id := "a"; stock := 4 |};
                 {| offer_id := "7"; stock := 100 |};
                 {| offer_id := "z"; stock := 0 |}], ["z"])) as Hrun.
  { vm_compute. reflexivity. }
  split; [exact Hrun|].
  destruct (create_stocks_each_offer_id_once
              [feed_row (PStr "a") (PStr "4") (PStr "10");
               feed_row (PStr "a") (PStr "oops") (PStr "10");
               feed_row (PInt 7) (PStr ">10") (PStr "10")]
              ["7"; "a"; "z"] Hnd) as [_ Hout].
  exact (proj1 (Hout _ _ Hrun)).
Defined.

(** C9, as stated, fails on a catalog list with a repeated id: [remove]
    takes out one occurrence for each matching row, so the id "a" is
    still in the caller's list after the call although a feed row matched
    it, and [create_prices] on that list still sees it. *)
Lemma create_stocks_repeated_id_stays :
  create_stocks [feed_row (PStr "a") (PStr "5") (PStr "10")] ["a"; "a"]
  = (Ok [{| offer_id := "a"; stock := 5 |}; {| offer_id := "a"; stock := 0 |}],
     ["a"]) /\
  code_of (feed_row (PStr "a") (PStr "5") (PStr "10")) = "a" /\
  create_prices [feed_row (PStr "a") (PStr "5") (PStr "10")] ["a"]
  = Ok [{| auto_action_enabled := "UNKNOWN"; currency_code := "RUB";
           price_offer_id := "a"; old_price := "0"; price := "10" |}].
Proof. repeat split; vm_compute; reflexivity. Qed.

(** What [create_stocks] leaves of a duplicate-free list, and what
    [create_prices] makes of the list afterwards. *)
Lemma create_prices_after_create_stocks
    (watch_remnants : list row) (offer_ids offer_ids' : list string)
    (out : list stock_update) :
  NoDup offer_ids ->
  create_stocks watch_remnants offer_ids = (Ok out, offer_ids') ->
  offer_ids' = filter (fun o => o ∉ code_of <$> watch_remnants) offer_ids /\
  (forall watch, watch ∈ watch_remnants -> code_of watch ∉ offer_ids') /\
  create_prices watch_remnants offer_ids' = Ok [].
Proof.
  intros Hnd Hrun. unfold create_stocks in Hrun.
  destruct (stocks_loop watch_remnants [] offer_ids) as [[new|e] ids'] eqn:Hloop;
    [|done].
  inversion Hrun; subst. clear Hrun.
  apply stocks_loop_NoDup in Hloop as (new' & _ & Hids & _); [|done].
  assert (forall watch, watch ∈ watch_remnants -> code_of watch ∉ offer_ids') as Hgone.
  { intros watch Hw Hin. rewrite Hids in Hin.
    apply list_elem_of_filter in Hin as [Hno _].
    apply Hno, list_elem_of_fmap. by exists watch. }
  repeat split; [done | done |].
  unfold create_prices. by apply prices_loop_no_match.
Qed.

(** C9, amended. [create_stocks] changes the caller's list: when the
    list has no repeated id, after the call returns an id is in it
    exactly when it is a catalog offer_id that no feed row carries (the
    list is the catalog list filtered, in its order); [create_prices]
    called with the same list, as [main] does, then sees none of the
    matched ids and returns no record. *)
Theorem create_stocks_leaves_unmatched_offer_ids
    (watch_remnants : list row) (offer_ids offer_ids' : list string)
    (out : list stock_update) :
  NoDup offer_ids ->
  create_stocks watch_remnants offer_ids = (Ok out, offer_ids') ->
  (forall o, o ∈ offer_ids' <->
             o ∈ offer_ids /\ forall watch, watch ∈ watch_remnants -> code_of watch <> o) /\
  offer_ids' = filter (fun o => o ∉ code_of <$> watch_remnants) offer_ids /\
  create_prices watch_remnants offer_ids' = Ok [].
Proof.
  intros Hnd Hrun.
  destruct (create_prices_after_create_stocks _ _ _ _ Hnd Hrun)
    as (Hids & Hgone & Hprices).
  split; [|by split].
  intros o. split.
  - intros Ho. split.
    + rewrite Hids in Ho. by apply list_elem_of_filter in Ho as [_ Ho].
    + intros watch Hw <-. by apply (Hgone watch).
  - intros [Ho Hno]. rewrite Hids. apply list_elem_of_filter. split; [|done].
    intros (watch & -> & Hw)%list_elem_of_fmap. by apply (Hno watch).
Qed.

Lemma create_stocks_leaves_unmatched_offer_ids_witness :
  ["b"] = filter (fun o => o ∉ code_of <$> demo_feed) ["123"; "b"] /\
  create_prices demo_feed ["b"] = Ok [].
Proof.
  assert (NoDup ["123"; "b"]) as Hnd.
  { apply (bool_decide_unpack _). vm_compute. exact I. }
  assert (create_stocks demo_feed ["123"; "b"]
          = (Ok [{| offer_id := "123"; stock := 5 |};
                 {| offer_id := "b"; stock := 0 |}], ["b"])) as Hrun.
  { vm_compute. reflexivity. }
  destruct (create_stocks_leaves_unmatched_offer_ids
              demo_feed ["123"; "b"] ["b"] _ Hnd Hrun) as (_ & Hids & Hprices).
  by split.
Defined.

(** ** The pagination loop of [get_offer_ids] *)

Lemma loop_run_snoc (api : endpoint) (n : nat) :
  forall st,
    loop_run api (S n) st =
    match loop_run api n st with
    | Running st' => loop_body api st'
    | done => done
    end.
Proof.
  induction n as [|n IH]; intros st.
  - simpl. by destruct (loop_body api st).
  - change (loop_run api (S (S n)) st)
      with (match loop_body api st with
            | Running st' => loop_run api (S n) st'
            | done => done
            end).
    destruct (loop_body api st) as [st'| |] eqn:Hbody.
    + rewrite IH. simpl. by rewrite Hbody.
    + simpl. by rewrite Hbody.
    + simpl. by rewrite Hbody.
Qed.

Lemma loop_run_Broke_mono (api : endpoint) (k n : nat) (st : loop_state)
    (products : list product) :
  (k <= n)%nat ->
  loop_run api k st = Broke products -> loop_run api n st = Broke products.
Proof.
  induction 1 as [|n Hle IH]; intros Hk; [done|].
  rewrite loop_run_snoc, IH; done.
Qed.

Lemma loop_body_Broke (api : endpoint) (st : loop_state) :
  (exists products, loop_body api st = Broke products) <->
  count_reaches_total api st.
Proof.
  unfold loop_body, count_reaches_total. split.
  - intros [products Hb].
    destruct (api (calls st) (cursor st)) as [some_prod|e]; [|done].
    exists some_prod. split; [done|].
    destruct (Z.eqb_spec (total some_prod)
                (Z.of_nat (length (product_list st ++ items some_prod)))); done.
  - intros (some_prod & -> & Htotal).
    rewrite <- Htotal, Z.eqb_refl. by eexists.
Qed.

Lemma loop_body_Running (api : endpoint) (st : loop_state) :
  count_misses_total api st -> exists st', loop_body api st = Running st'.
Proof.
  unfold loop_body. intros (some_prod & -> & Htotal).
  apply Z.eqb_neq in Htotal. rewrite Htotal. by eexists.
Qed.

(** C7. A pass of the loop leaves it exactly when the accumulated count
    equals the reported total; the loop has ended normally within [n]
    passes exactly when that happened at one of them; and when, at every
    pass the run comes to, the endpoint answers with a total different
    from the accumulated count, the loop is still running after any
    number of passes: [get_offer_ids] gives neither a list nor an
    exception. *)
Theorem pagination_stops_only_at_total (api : endpoint) :
  (forall st,
      (exists products, loop_body api st = Broke products) <->
      count_reaches_total api st) /\
  (forall n,
      (exists products, loop_run api n loop_start = Broke products) <->
      (exists k st, (k < n)%nat /\
                    loop_run api k loop_start = Running st /\
                    count_reaches_total api st)) /\
  ((forall k st, loop_run api k loop_start = Running st ->
                 count_misses_total api st) ->
   forall fuel, get_offer_ids api fuel = None).
Proof.
  split; [apply loop_body_Broke|]. split.
  - intros n. split.
    + induction n as [|n IH]; intros [products Hrun]; [done|].
      rewrite loop_run_snoc in Hrun.
      destruct (loop_run api n loop_start) as [st| products' |e] eqn:Hn.
      * exists n, st. split; [lia|]. split; [done|].
        apply loop_body_Broke. by exists products.
      * destruct IH as (k & st & Hk & Hrunk & Htotal); [by eexists|].
        exists k, st. split; [lia | done].
      * done.
    + intros (k & st & Hk & Hrunk & Htotal).
      apply loop_body_Broke in Htotal as [products Hbody].
      exists products. apply (loop_run_Broke_mono api (S k)); [lia|].
      by rewrite loop_run_snoc, Hrunk.
  - intros Hmiss fuel.
    assert (exists st, loop_run api fuel loop_start = Running st) as [st Hst].
    { induction fuel as [|fuel [st IH]]; [by eexists|].
      rewrite loop_run_snoc, IH.
      apply loop_body_Running. by apply (Hmiss fuel). }
    unfold get_offer_ids. by rewrite Hst.
Qed.

Lemma stuck_endpoint_count (k : nat) :
  forall st,
    loop_run stuck_endpoint k loop_start = Running st ->
    length (product_list st) = (2 * k)%nat.
Proof.
  induction k as [|k IH]; intros st Hrun.
  - by inversion Hrun.
  - rewrite loop_run_snoc in Hrun.
    destruct (loop_run stuck_endpoint k loop_start) as [st'| |] eqn:Hk; [|done|done].
    specialize (IH st' eq_refl).
    unfold loop_body, stuck_endpoint in Hrun. cbn [total items last_id] in Hrun.
    destruct (_ =? _); [done|].
    inversion Hrun; subst; simpl. rewrite length_app, IH. simpl. lia.
Qed.

Lemma pagination_stops_only_at_total_witness :
  get_offer_ids stuck_endpoint 1000 = None /\
  (exists products, loop_run repeating_endpoint 2 loop_start = Broke products).
Proof.
  destruct (pagination_stops_only_at_total stuck_endpoint) as (_ & _ & Hnever).
  destruct (pagination_stops_only_at_total repeating_endpoint) as (_ & Hstops & _).
  split.
  - apply Hnever. intros k st Hrun. apply stuck_endpoint_count in Hrun.
    eexists. split; [reflexivity|].
    cbn [total items]. rewrite length_app, Hrun. simpl. lia.
  - apply Hstops. eexists 1%nat, _. split; [lia|]. split; [reflexivity|].
    eexists. split; reflexivity.
Defined.

(** A cursor that does not advance need not keep the loop running: when
    the repeated page brings the count onto the total, the loop ends and
    the catalog list has the same offer_id twice. *)
Lemma repeated_page_gives_repeated_ids :
  get_offer_ids repeating_endpoint 1 = None /\
  get_offer_ids repeating_endpoint 2 = Some (Ok ["a"; "a"]).
Proof. split; reflexivity. Qed.

(** ** [download_stock] *)

(** C8. When the download and the extraction succeed and the
    spreadsheet is in the working directory afterwards: if parsing
    succeeds, [download_stock] returns the rows and the extracted file
    is gone from the working directory, which is otherwise as the
    extraction left it; if parsing raises, the same exception leaves
    [download_stock] and the working directory stays as the extraction
    left it, the extracted file included. *)
Theorem download_stock_removes_file_only_after_parse
    (w : world) (st : state) (content sheet : string)
    (extracted : gmap string string) :
  casio_get w = Ok content ->
  zip_extractall w content (files st) = (Ok tt, extracted) ->
  extracted !! excel_file = Some sheet ->
  (forall rows, read_excel w sheet = Ok rows ->
     exists st', download_stock w st = (Ok rows, st') /\
                 files st' !! excel_file = None /\
                 files st' = delete excel_file extracted) /\
  (forall e, read_excel w sheet = Raise e ->
     exists st', download_stock w st = (Raise e, st') /\
                 files st' !! excel_file = Some sheet /\
                 files st' = extracted).
Proof.
  intros Hget Hzip Hfile.
  unfold download_stock, pbind, lift, extractall. rewrite Hget, Hzip.
  unfold open_file. simpl. rewrite Hfile.
  split.
  - intros rows ->. unfold os_remove. simpl. rewrite Hfile.
    eexists. split; [reflexivity|]. simpl. split; [apply lookup_delete_eq | done].
  - intros e ->. eexists. split; [reflexivity|]. by split.
Qed.

Lemma download_stock_removes_file_only_after_parse_witness :
  (exists st', download_stock (demo_world ["123"] demo_feed) empty_state
               = (Ok demo_feed, st') /\
               files st' !! excel_file = None /\
               files st' = delete excel_file (<["ostatki.xls" := "sheet"]> ∅)) /\
  (exists st', download_stock bad_sheet_world empty_state
               = (Raise (OtherError "unsupported format"), st') /\
               files st' !! excel_file = Some "garbage" /\
               files st' = <["ostatki.xls" := "garbage"]> (<["readme.txt" := "notes"]> ∅)).
Proof.
  split.
  - destruct (download_stock_removes_file_only_after_parse
                (demo_world ["123"] demo_feed) empty_state "zip" "sheet"
                (<["ostatki.xls" := "sheet"]> ∅))
      as [Hok _]; [reflexivity | reflexivity | reflexivity |].
    apply Hok. reflexivity.
  - destruct (download_stock_removes_file_only_after_parse
                bad_sheet_world empty_state "zip" "garbage"
                (<["ostatki.xls" := "garbage"]> (<["readme.txt" := "notes"]> ∅)))
      as [_ Hraise]; [reflexivity | reflexivity | reflexivity |].
    apply Hraise. reflexivity.
Defined.

Lemma download_stock_trace (w : world) (st st' : state) (r : result (list row)) :
  download_stock w st = (r, st') -> trace st' = trace st.
Proof.
  unfold download_stock, pbind, lift, extractall, open_file, os_remove, ret.
  destruct (casio_get w) as [content|e]; [|by inversion 1].
  destruct (zip_extractall w content (files st)) as [[[]|e] extracted];
    simpl; [|by inversion 1].
  destruct (_ !! excel_file) as [sheet|]; [|by inversion 1].
  destruct (read_excel w sheet) as [rows|e]; [|by inversion 1].
  simpl. destruct (_ !! excel_file); by inversion 1.
Qed.

(** ** [divide] *)

(** The documented behaviour: piece [i] is [lst[i*n : i*n + n]], and the
    pieces put together give the list back. *)
Lemma chunks_fuel_lookup {A} (n fuel : nat) :
  (0 < n)%nat ->
  forall (lst : list A) (i : nat),
    (length lst <= fuel)%nat -> (i * n < length lst)%nat ->
    chunks_fuel fuel n lst !! i = Some (take n (drop (i * n) lst)).
Proof.
  intros Hn. induction fuel as [|fuel IH]; intros lst i Hfuel Hi; [lia|].
  destruct lst as [|a lst]; [simpl in Hi; lia|].
  change (chunks_fuel (S fuel) n (a :: lst))
    with (take n (a :: lst) :: chunks_fuel fuel n (drop n (a :: lst))).
  destruct i as [|i]; [done|].
  change ((?x :: ?l) !! S i) with (l !! i).
  rewrite IH.
  - rewrite drop_drop. reflexivity.
  - rewrite length_drop. simpl in *. lia.
  - rewrite length_drop. simpl in *. lia.
Qed.

Lemma chunks_fuel_concat {A} (n fuel : nat) :
  (0 < n)%nat ->
  forall lst : list A, (length lst <= fuel)%nat ->
    concat (chunks_fuel fuel n lst) = lst.
Proof.
  intros Hn. induction fuel as [|fuel IH]; intros lst Hfuel.
  - destruct lst; [done | simpl in Hfuel; lia].
  - destruct lst as [|a lst]; [done|].
    change (chunks_fuel (S fuel) n (a :: lst))
      with (take n (a :: lst) :: chunks_fuel fuel n (drop n (a :: lst))).
    simpl concat. rewrite IH; [apply take_drop|].
    rewrite length_drop. simpl in *. lia.
Qed.

Lemma divide_documented_pieces {A} (lst : list A) (n : Z) :
  0 < n ->
  exists pieces,
    py_list (divide_documented lst n) = Ok pieces /\
    concat pieces = lst /\
    forall i, (i * Z.to_nat n < length lst)%nat ->
              pieces !! i = Some (take (Z.to_nat n) (drop (i * Z.to_nat n) lst)).
Proof.
  intros Hn. eexists. split; [reflexivity|]. unfold chunks. split.
  - apply chunks_fuel_concat; lia.
  - intros i Hi. apply chunks_fuel_lookup; lia.
Qed.

(** C1: what the code does.  Every call of [divide] returns [None], so
    [list(divide(lst, n))] raises [TypeError] whatever the list and the
    chunk size; the docstring's own example and the 2500-record example
    of the specification hold for the documented behaviour and not for
    the code. *)
Theorem divide_returns_none :
  (forall (A : Type) (lst : list A) (n : Z),
      divide lst n = ReturnsNone /\ py_list (divide lst n) = Raise TypeError) /\
  py_list (divide [1; 2; 3; 4] 2) = Raise TypeError /\
  py_list (divide_documented [1; 2; 3; 4] 2) = Ok [[1; 2]; [3; 4]] /\
  py_list (divide (repeat 0 2500) 1000) = Raise TypeError /\
  (length <$> chunks 1000 (repeat 0 2500)) = [1000; 1000; 500]%nat.
Proof.
  split; [done|]. repeat split; vm_compute; reflexivity.
Qed.

(** ** [main] *)

Lemma price_posts_app (tr1 tr2 : list event) :
  price_posts (tr1 ++ tr2) = price_posts tr1 ++ price_posts tr2.
Proof. apply omap_app. Qed.

(** With the [divide] of the source, [main_flows] raises before any
    upload and leaves the trace as it was. *)
Lemma main_flows_raises (w : world) (offer_ids : list string) (st : state) :
  exists e st',
    main_flows (@divide) w offer_ids st = (Raise e, st') /\
    trace st' = trace st.
Proof.
  unfold main_flows, pbind.
  destruct (download_stock w st) as [[watch_remnants|e] st1] eqn:Hdl;
    apply download_stock_trace in Hdl; [|by eexists _, _].
  unfold call_create_stocks.
  destruct (create_stocks watch_remnants offer_ids) as [[stocks|e] ids'];
    simpl; by eexists _, _.
Qed.

Lemma for_each_update_stocks_price_posts (w : world)
    (batches : list (list stock_update)) :
  forall st,
    price_posts (trace (snd (for_each (update_stocks w) batches st)))
    = price_posts (trace st).
Proof.
  induction batches as [|batch batches IH]; intros st; [done|].
  simpl. unfold pbind, update_stocks, pbind, emit, lift. simpl.
  destruct (stocks_api w batch) as [[]|e]; simpl.
  - rewrite IH. simpl. by rewrite price_posts_app, app_nil_r.
  - by rewrite price_posts_app, app_nil_r.
Qed.

(** Were [divide] to behave as documented, [main] would still issue no
    price update for a catalog without repeated ids: [create_prices]
    gets the list [create_stocks] has stripped of every matched id. *)
Lemma main_shared_list_blocks_prices (w : world) (fuel : nat) (st : state) :
  (forall offer_ids,
      get_offer_ids (product_list_api w) fuel = Some (Ok offer_ids) ->
      NoDup offer_ids) ->
  match main_with (@divide_documented) w fuel st with
  | Some st' => price_posts (trace st') = price_posts (trace st)
  | None => True
  end.
Proof.
  intros Hnd. unfold main_with.
  destruct (get_offer_ids (product_list_api w) fuel) as [[offer_ids|e]|];
    [| |done].
  - specialize (Hnd offer_ids eq_refl).
    assert (forall r st', main_flows (@divide_documented) w offer_ids st = (r, st') ->
                          price_posts (trace st') = price_posts (trace st)) as Hflows.
    { unfold main_flows, pbind. intros r st'.
      destruct (download_stock w st) as [[watch_remnants|e] st1] eqn:Hdl;
        apply download_stock_trace in Hdl; [|inversion 1; subst; by rewrite Hdl].
      unfold call_create_stocks.
      destruct (create_stocks watch_remnants offer_ids) as [[stocks|e] ids'] eqn:Hcs;
        [|inversion 1; subst; by rewrite Hdl].
      apply create_prices_after_create_stocks in Hcs as (_ & _ & Hprices); [|done].
      simpl.
      pose proof (for_each_update_stocks_price_posts w
                    (chunks (Z.to_nat 100) stocks) st1) as Hposts.
      destruct (for_each (update_stocks w) _ st1) as [[[]|e] st2].
      - rewrite Hprices. simpl. inversion 1; subst.
        simpl in Hposts. by rewrite Hposts, Hdl.
      - inversion 1; subst. simpl in Hposts. by rewrite Hposts, Hdl. }
    unfold try_except, pbind, lift.
    destruct (main_flows _ w offer_ids st) as [r st'].
    specialize (Hflows r st' eq_refl).
    destruct r as [[]|e]; simpl; [done|].
    by rewrite price_posts_app, Hflows, app_nil_r.
  - unfold try_except, pbind, lift. simpl.
    by rewrite price_posts_app, app_nil_r.
Qed.

(** [upload_prices] fetches the catalog itself, so its transform sees
    every catalog id; with the [divide] of the source it raises once the
    prices are built, with the documented one it uploads them. *)
Lemma upload_prices_fetches_afresh :
  option_map (fun c => fst (c empty_state))
    (upload_prices (demo_world ["123"] demo_feed) 1 demo_feed)
  = Some (Raise TypeError) /\
  option_map (fun c => price_posts (trace (snd (c empty_state))))
    (upload_prices_with (@divide_documented) (demo_world ["123"] demo_feed) 1 demo_feed)
  = Some [[{| auto_action_enabled := "UNKNOWN"; currency_code := "RUB";
              price_offer_id := "123"; old_price := "0"; price := "5990" |}]].
Proof. split; vm_compute; reflexivity. Qed.

(** C2: what the code does.  No run of [main] issues a price update.
    For the catalog ["123"] and a feed whose only row has code "123", the
    run prints the message of the last [except] clause and nothing else;
    and were [divide] to behave as documented, the run would upload the
    stock of "123" and still no price, because [create_prices] receives
    the list [create_stocks] has emptied. *)
Theorem main_issues_no_price_update :
  (forall (w : world) (fuel : nat) (st : state),
      match main w fuel st with
      | Some st' => price_posts (trace st') = price_posts (trace st)
      | None => True
      end) /\
  code_of (feed_row (PStr "123") (PStr "5") (PStr "5990")) ∈ ["123"] /\
  main (demo_world ["123"] demo_feed) 1 empty_state
  = Some {| files := ∅; trace := [Printed "ERROR_2"] |} /\
  main_with (@divide_documented) (demo_world ["123"] demo_feed) 1 empty_state
  = Some {| files := ∅;
            trace := [PostStocks [{| offer_id := "123"; stock := 5 |}]] |} /\
  create_prices demo_feed ["123"]
  = Ok [{| auto_action_enabled := "UNKNOWN"; currency_code := "RUB";
           price_offer_id := "123"; old_price := "0"; price := "5990" |}].
Proof.
  split.
  - intros w fuel st. unfold main, main_with.
    destruct (get_offer_ids (product_list_api w) fuel) as [[offer_ids|e]|];
      [| |done].
    + unfold try_except, pbind, lift.
      destruct (main_flows_raises w offer_ids st) as (e & st' & -> & Htrace).
      simpl. by rewrite price_posts_app, Htrace, app_nil_r.
    + unfold try_except, pbind, lift. simpl.
      by rewrite price_posts_app, app_nil_r.
  - split; [apply (bool_decide_unpack _); vm_compute; exact I|].
    repeat split; vm_compute; reflexivity.
Qed.

(** * Further properties of the code *)

(** ** [get_offer_ids] *)

Lemma loop_run_Broke_pages (api : endpoint) (n : nat) :
  forall st products,
    loop_run api n st = Broke products ->
    exists pages pg,
      answered api (calls st) (cursor st) (pages ++ [pg]) /\
      products = product_list st ++ concat (items <$> (pages ++ [pg])) /\
      total pg = Z.of_nat (length products) /\
      (length pages < n)%nat.
Proof.
  induction n as [|n IH]; intros st products Hrun; [done|].
  simpl in Hrun. unfold loop_body in Hrun.
  destruct (api (calls st) (cursor st)) as [some_prod|e] eqn:Hcall; [|done].
  destruct (Z.eqb_spec (total some_prod)
              (Z.of_nat (length (product_list st ++ items some_prod))))
    as [Heq|Hne].
  - inversion Hrun; subst. exists [], some_prod. simpl.
    rewrite app_nil_r. repeat split; [done | done | lia].
  - apply IH in Hrun as (pages & pg & Hans & -> & Htotal & Hlen). simpl in *.
    exists (some_prod :: pages), pg. simpl.
    rewrite <- app_assoc in *. repeat split; [done | done | done | lia].
Qed.

(** X1. When [get_offer_ids] returns a list, the calls it made form a
    chain that starts with the empty cursor and passes each answer's
    [last_id] to the next call; the list is the offer_ids of all the
    answered pages in order, and its length is the total the last answer
    reported. *)
Theorem get_offer_ids_returns_all_pages
    (api : endpoint) (fuel : nat) (ids : list string) :
  get_offer_ids api fuel = Some (Ok ids) ->
  exists pages pg,
    answered api 0 "" (pages ++ [pg]) /\
    ids = offer_ids_of (pages ++ [pg]) /\
    total pg = Z.of_nat (length ids) /\
    (length pages < fuel)%nat.
Proof.
  unfold get_offer_ids. intros Hrun.
  destruct (loop_run api fuel loop_start) as [st|products|e] eqn:Hloop; [done| |done].
  inversion Hrun; subst. clear Hrun.
  apply loop_run_Broke_pages in Hloop as (pages & pg & Hans & -> & Htotal & Hlen).
  simpl in Hans, Htotal. exists pages, pg.
  split; [exact Hans|]. split; [reflexivity|]. split; [|exact Hlen].
  by rewrite length_map.
Qed.

Lemma get_offer_ids_returns_all_pages_witness :
  exists pages pg,
    answered two_page_endpoint 0 "" (pages ++ [pg]) /\
    ["a"; "b"; "c"] = offer_ids_of (pages ++ [pg]) /\
    total pg = 3 /\
    (length pages < 2)%nat.
Proof.
  apply (get_offer_ids_returns_all_pages two_page_endpoint 2 ["a"; "b"; "c"]).
  reflexivity.
Defined.




Lemma loop_run_add (api : endpoint) (k m : nat) :
  forall st,
    loop_run api (k + m) st =
    match loop_run api k st with
    | Running st' => loop_run api m st'
    | done => done
    end.
Proof.
  induction k as [|k IH]; intros st; [done|].
  simpl. destruct (loop_body api st); [apply IH | done | done].
Qed.

Lemma loop_run_overshoot (api : endpoint) (T : Z) (m : nat) :
  (forall k c pg, api k c = Ok pg -> total pg = T) ->
  forall st products,
    T < Z.of_nat (length (product_list st)) ->
    loop_run api m st <> Broke products.
Proof.
  intros Hconst. induction m as [|m IH]; intros st products Hover; [done|].
  simpl. unfold loop_body.
  destruct (api (calls st) (cursor st)) as [some_prod|e] eqn:Hcall; [|done].
  apply Hconst in Hcall.
  destruct (Z.eqb_spec (total some_prod)
              (Z.of_nat (length (product_list st ++ items some_prod))))
    as [Heq|Hne].
  - rewrite length_app in Heq. lia.
  - apply IH. simpl. rewrite length_app. lia.
Qed.

(** X3. With an endpoint that always reports the same total, once the
    accumulated count has gone past that total the loop can no longer
    end normally: whatever the number of passes, [get_offer_ids] is still
    running or has raised, and returns no list. *)
Theorem get_offer_ids_overshoot_never_returns
    (api : endpoint) (T : Z) (k : nat) (st : loop_state) :
  (forall j c pg, api j c = Ok pg -> total pg = T) ->
  loop_run api k loop_start = Running st ->
  T < Z.of_nat (length (product_list st)) ->
  forall fuel,
    get_offer_ids api fuel = None \/
    exists e, get_offer_ids api fuel = Some (Raise e).
Proof.
  intros Hconst Hrun Hover fuel. unfold get_offer_ids.
  destruct (loop_run api fuel loop_start) as [st'|products|e] eqn:Hloop;
    [by left | | right; by eexists].
  exfalso. destruct (Nat.le_gt_cases fuel k) as [Hle|Hgt].
  - rewrite (loop_run_Broke_mono api fuel k loop_start products Hle Hloop) in Hrun.
    done.
  - replace fuel with (k + (fuel - k))%nat in Hloop by lia.
    rewrite loop_run_add, Hrun in Hloop.
    by apply (loop_run_overshoot api T _ Hconst) in Hloop.
Qed.

Lemma get_offer_ids_overshoot_never_returns_witness :
  get_offer_ids stuck_endpoint 100 = None \/
  exists e, get_offer_ids stuck_endpoint 100 = Some (Raise e).
Proof.
  apply (get_offer_ids_overshoot_never_returns stuck_endpoint 3 2
           {| calls := 2; cursor := "";
              product_list := [ {| product_id := 1; product_offer_id := "a" |};
                                {| product_id := 2; product_offer_id := "b" |};
                                {| product_id := 1; product_offer_id := "a" |};
                                {| product_id := 2; product_offer_id := "b" |} ] |}).
  - intros j c pg Hpg. unfold stuck_endpoint in Hpg. by inversion Hpg.
  - reflexivity.
  - simpl. lia.
Defined.

(** ** [create_stocks] on any lists *)

(** X4. Whatever the lists, repeated ids included: when [create_stocks]
    returns, the offer_ids of its records are a rearrangement of the
    offer_id list it was given, so there are as many records as catalog
    entries. *)
Theorem create_stocks_one_record_per_catalog_entry
    (watch_remnants : list row) (offer_ids offer_ids' : list string)
    (out : list stock_update) :
  create_stocks watch_remnants offer_ids = (Ok out, offer_ids') ->
  offer_id <$> out ≡ₚ offer_ids /\ length out = length offer_ids.
Proof.
  unfold create_stocks. intros Hrun.
  destruct (stocks_loop watch_remnants [] offer_ids) as [[new|e] ids'] eqn:Hloop;
    [|done].
  inversion Hrun; subst. clear Hrun.
  apply stocks_loop_perm in Hloop as (new' & Heq & Hperm).
  simpl in Heq. subst new'.
  assert (offer_id <$> new ++ map zero_stock offer_ids' ≡ₚ offer_ids) as Hout.
  { by rewrite fmap_app, offer_id_zero_stock. }
  split; [done|].
  apply Permutation_length in Hout. by rewrite length_fmap in Hout.
Qed.

Lemma create_stocks_one_record_per_catalog_entry_witness :
  offer_id <$> [{| offer_id := "a"; stock := 5 |}; {| offer_id := "b"; stock := 0 |};
                {| offer_id := "a"; stock := 0 |}]
  ≡ₚ ["a"; "b"; "a"] /\
  length [{| offer_id := "a"; stock := 5 |}; {| offer_id := "b"; stock := 0 |};
          {| offer_id := "a"; stock := 0 |}] = length ["a"; "b"; "a"].
Proof.
  apply (create_stocks_one_record_per_catalog_entry
           [feed_row (PStr "a") (PStr "5") (PStr "10")]
           ["a"; "b"; "a"] ["b"; "a"]).
  vm_compute. reflexivity.
Defined.

Lemma stocks_loop_Raise (watch_remnants : list row) :
  forall stocks offer_ids e offer_ids',
    stocks_loop watch_remnants stocks offer_ids = (Raise e, offer_ids') ->
    exists before watch after stocks1,
      watch_remnants = before ++ watch :: after /\
      stocks_loop before stocks offer_ids = (Ok stocks1, offer_ids') /\
      code_of watch ∈ offer_ids' /\
      stock_of (quantity_of watch) = Raise e.
Proof.
  induction watch_remnants as [|watch rest IH];
    intros stocks offer_ids e offer_ids' Hrun; simpl in Hrun; [done|].
  fold (code_of watch) in Hrun. fold (quantity_of watch) in Hrun.
  assert (forall stocks2 ids2,
             stocks_loop rest stocks2 ids2 = (Raise e, offer_ids') ->
             stocks_loop [watch] stocks offer_ids = (Ok stocks2, ids2) ->
             exists before watch0 after stocks1,
               watch :: rest = before ++ watch0 :: after /\
               stocks_loop before stocks offer_ids = (Ok stocks1, offer_ids') /\
               code_of watch0 ∈ offer_ids' /\
               stock_of (quantity_of watch0) = Raise e) as Hnext.
  { intros stocks2 ids2 Hrest Hhead.
    apply IH in Hrest as (before & w0 & after & stocks1 & -> & Hbefore & Hin & Hq).
    exists (watch :: before), w0, after, stocks1. split; [done|].
    split; [|done].
    change (watch :: before) with ([watch] ++ before).
    by rewrite stocks_loop_app, Hhead. }
  destruct (decide (code_of watch ∈ offer_ids)) as [Hin|Hout].
  - destruct (stock_of (quantity_of watch)) as [n|e'] eqn:Hn.
    + destruct (py_remove_elem_of _ _ Hin) as [ids1 Hrm]. rewrite Hrm in Hrun.
      apply (Hnext _ _ Hrun). simpl.
      fold (code_of watch). fold (quantity_of watch).
      by rewrite decide_True, Hn, Hrm.
    + inversion Hrun; subst.
      exists [], watch, rest, stocks. by repeat split.
  - apply (Hnext _ _ Hrun). simpl. fold (code_of watch). by rewrite decide_False.
Qed.

Lemma stock_of_Raise (quantity : pyval) (e : exn) :
  stock_of quantity = Raise e ->
  e = ValueError \/ e = TypeError \/ e = OverflowError.
Proof.
  unfold stock_of.
  destruct (String.eqb _ ">10"); [done|].
  destruct (String.eqb _ "1"); [done|].
  destruct quantity as [|s|z|[repr truncated|negative|]]; simpl;
    [naive_solver | | done | done | naive_solver | naive_solver].
  destruct (int_of_string s); naive_solver.
Qed.

(** X5. [create_stocks] raises only at a feed row whose code is among
    the ids still in the list and whose quantity the stock rule cannot
    convert, and what it raises is the exception of [int] on that
    quantity: [ValueError] (a text that is no number, a NaN),
    [TypeError] (no quantity) or [OverflowError] (an infinite float);
    the caller's list is then left as the rows before that one made it,
    with the ids they matched already removed. *)
Theorem create_stocks_raises_at_bad_quantity
    (watch_remnants : list row) (offer_ids offer_ids' : list string) (e : exn) :
  create_stocks watch_remnants offer_ids = (Raise e, offer_ids') ->
  (e = ValueError \/ e = TypeError \/ e = OverflowError) /\
  exists before watch after stocks,
    watch_remnants = before ++ watch :: after /\
    stocks_loop before [] offer_ids = (Ok stocks, offer_ids') /\
    (offer_id <$> stocks) ++ offer_ids' ≡ₚ offer_ids /\
    code_of watch ∈ offer_ids' /\
    stock_of (quantity_of watch) = Raise e.
Proof.
  unfold create_stocks. intros Hrun.
  destruct (stocks_loop watch_remnants [] offer_ids) as [[new|e'] ids'] eqn:Hloop;
    [done|].
  inversion Hrun; subst. clear Hrun.
  apply stocks_loop_Raise in Hloop
    as (before & watch & after & stocks & -> & Hbefore & Hin & Hq).
  split; [by apply (stock_of_Raise (quantity_of watch))|].
  exists before, watch, after, stocks. repeat split; try done.
  by apply stocks_loop_perm in Hbefore as (new & -> & Hperm).
Qed.

Lemma create_stocks_raises_at_bad_quantity_witness :
  (OverflowError = ValueError \/ OverflowError = TypeError \/
   OverflowError = OverflowError) /\
  exists before watch after stocks,
    [feed_row (PStr "a") (PFloat (Finite "4.7" 4)) (PStr "10");
     feed_row (PStr "b") (PFloat (Infinity false)) (PStr "10");
     feed_row (PStr "c") (PStr "2") (PStr "10")]
    = before ++ watch :: after /\
    stocks_loop before [] ["c"; "b"; "a"] = (Ok stocks, ["c"; "b"]) /\
    (offer_id <$> stocks) ++ ["c"; "b"] ≡ₚ ["c"; "b"; "a"] /\
    code_of watch ∈ ["c"; "b"] /\
    stock_of (quantity_of watch) = Raise OverflowError.
Proof.
  apply (create_stocks_raises_at_bad_quantity
           [feed_row (PStr "a") (PFloat (Finite "4.7" 4)) (PStr "10");
            feed_row (PStr "b") (PFloat (Infinity false)) (PStr "10");
            feed_row (PStr "c") (PStr "2") (PStr "10")]
           ["c"; "b"; "a"] ["c"; "b"] OverflowError).
  vm_compute. reflexivity.
Defined.

Lemma stocks_loop_no_match (watch_remnants : list row) (offer_ids : list string) :
  forall stocks,
    (forall watch, watch ∈ watch_remnants -> code_of watch ∉ offer_ids) ->
    stocks_loop watch_remnants stocks offer_ids = (Ok stocks, offer_ids).
Proof.
  induction watch_remnants as [|watch rest IH]; intros stocks Hno; simpl; [done|].
  fold (code_of watch).
  destruct (decide (code_of watch ∈ offer_ids)) as [Hin|Hout].
  - destruct (Hno watch); [left | done].
  - apply IH. intros w Hw. apply Hno. by right.
Qed.

(** X6. When no feed row carries a catalog id, [create_stocks] returns
    stock 0 for every catalog id, in catalog order, and leaves the
    caller's list as it was; no quantity is read, so a feed full of
    unreadable quantities cannot make it raise. *)
Theorem create_stocks_zero_fills_unmatched_catalog
    (watch_remnants : list row) (offer_ids : list string) :
  (forall watch, watch ∈ watch_remnants -> code_of watch ∉ offer_ids) ->
  create_stocks watch_remnants offer_ids = (Ok (map zero_stock offer_ids), offer_ids).
Proof.
  intros Hno. unfold create_stocks.
  by rewrite stocks_loop_no_match.
Qed.

Lemma create_stocks_zero_fills_unmatched_catalog_witness :
  create_stocks
    [feed_row (PStr "x") (PStr "not a number") PNone; feed_row PNone PNone PNone]
    ["a"; "b"]
  = (Ok [{| offer_id := "a"; stock := 0 |}; {| offer_id := "b"; stock := 0 |}],
     ["a"; "b"]).
Proof.
  apply (create_stocks_zero_fills_unmatched_catalog
           [feed_row (PStr "x") (PStr "not a number") PNone; feed_row PNone PNone PNone]
           ["a"; "b"]).
  intros watch Hin Hcode.
  apply list_elem_of_In in Hin. simpl in Hin.
  apply list_elem_of_In in Hcode.
  destruct Hin as [<-|[<-|[]]]; vm_compute in Hcode;
    destruct Hcode as [Hcode|[Hcode|[]]]; discriminate Hcode.
Defined.

Lemma py_remove_sublist (x : string) (l l' : list string) :
  py_remove x l = Ok l' -> sublist l' l.
Proof.
  revert l'. induction l as [|y l IH]; intros l' Hrm; simpl in Hrm; [done|].
  destruct (decide (x = y)) as [->|Hne].
  - inversion Hrm; subst. by apply sublist_cons.
  - destruct (py_remove x l) as [l''|e]; simpl in Hrm; [|done].
    inversion Hrm; subst. apply sublist_skip. by apply IH.
Qed.

Lemma stocks_loop_order (watch_remnants : list row) :
  forall stocks offer_ids out offer_ids',
    stocks_loop watch_remnants stocks offer_ids = (Ok out, offer_ids') ->
    exists new,
      out = stocks ++ new /\
      sublist (offer_id <$> new) (code_of <$> watch_remnants) /\
      sublist offer_ids' offer_ids.
Proof.
  induction watch_remnants as [|watch rest IH];
    intros stocks offer_ids out offer_ids' Hrun; simpl in Hrun.
  - inversion Hrun; subst. exists []. by rewrite app_nil_r.
  - fold (code_of watch) in Hrun.
    destruct (decide (code_of watch ∈ offer_ids)) as [Hin|Hout].
    + destruct (stock_of _) as [n|e]; [|done].
      destruct (py_remove _ offer_ids) as [ids1|e] eqn:Hrm; [|done].
      apply IH in Hrun as (new & -> & Hnew & Hids).
      eexists (_ :: new). split; [by rewrite <- app_assoc|]. split.
      * rewrite !fmap_cons. simpl. by apply sublist_skip.
      * etrans; [done|]. by apply py_remove_sublist in Hrm.
    + apply IH in Hrun as (new & -> & Hnew & Hids).
      exists new. split; [done|]. split; [|done].
      rewrite fmap_cons. by apply sublist_cons.
Qed.

(** X7. The list [create_stocks] returns has first the records made
    from feed rows, in feed order, then the zero-stock records of the
    ids left in the caller's list, in the order of that list, which is a
    sublist of the list the call was given. *)
Theorem create_stocks_output_order
    (watch_remnants : list row) (offer_ids offer_ids' : list string)
    (out : list stock_update) :
  create_stocks watch_remnants offer_ids = (Ok out, offer_ids') ->
  exists matched,
    out = matched ++ map zero_stock offer_ids' /\
    sublist (offer_id <$> matched) (code_of <$> watch_remnants) /\
    sublist offer_ids' offer_ids.
Proof.
  unfold create_stocks. intros Hrun.
  destruct (stocks_loop watch_remnants [] offer_ids) as [[new|e] ids'] eqn:Hloop;
    [|done].
  inversion Hrun; subst. clear Hrun.
  apply stocks_loop_order in Hloop as (new' & Heq & Hnew & Hids).
  simpl in Heq. subst new'. by exists new.
Qed.

Lemma create_stocks_output_order_witness :
  exists matched,
    [{| offer_id := "b"; stock := 7 |}; {| offer_id := "a"; stock := 100 |};
     {| offer_id := "c"; stock := 0 |}]
    = matched ++ map zero_stock ["c"] /\
    sublist (offer_id <$> matched)
      (code_of <$> [feed_row (PStr "b") (PStr "7") (PStr "10");
                    feed_row (PStr "zz") (PStr "3") (PStr "10");
                    feed_row (PStr "a") (PStr ">10") (PStr "1'200.00")]) /\
    sublist ["c"] ["a"; "b"; "c"].
Proof.
  apply (create_stocks_output_order
           [feed_row (PStr "b") (PStr "7") (PStr "10");
            feed_row (PStr "zz") (PStr "3") (PStr "10");
            feed_row (PStr "a") (PStr ">10") (PStr "1'200.00")]
           ["a"; "b"; "c"] ["c"]).
  vm_compute. reflexivity.
Defined.

(** ** [create_prices] and [price_conversion] on any rows *)

Lemma prices_loop_Raise (offer_ids : list string) (watch_remnants : list row) :
  forall prices e,
    prices_loop watch_remnants prices offer_ids = Raise e ->
    e = AttributeError /\
    exists watch, watch ∈ watch_remnants /\ code_of watch ∈ offer_ids /\
                  forall s, dict_get watch "Цена" <> PStr s.
Proof.
  induction watch_remnants as [|watch rest IH]; intros prices e Hrun;
    simpl in Hrun; [done|].
  fold (code_of watch) in Hrun.
  destruct (decide (code_of watch ∈ offer_ids)) as [Hin|Hout].
  - destruct (dict_get watch "Цена") as [|s|z|f] eqn:Hprice.
    + inversion Hrun; subst. split; [done|].
      exists watch. split; [left|]. split; [done|]. by rewrite Hprice.
    + rewrite price_conversion_str in Hrun. simpl in Hrun.
      apply IH in Hrun as (-> & w & Hw & Hcode & Hs). split; [done|].
      exists w. split; [by right | done].
    + inversion Hrun; subst. split; [done|].
      exists watch. split; [left|]. split; [done|]. by rewrite Hprice.
    + inversion Hrun; subst. split; [done|].
      exists watch. split; [left|]. split; [done|]. by rewrite Hprice.
  - apply IH in Hrun as (-> & w & Hw & Hcode & Hs). split; [done|].
    exists w. split; [by right | done].
Qed.

Lemma prices_loop_bad_price (offer_ids : list string) (watch_remnants : list row) :
  forall prices,
    (exists watch, watch ∈ watch_remnants /\ code_of watch ∈ offer_ids /\
                   forall s, dict_get watch "Цена" <> PStr s) ->
    prices_loop watch_remnants prices offer_ids = Raise AttributeError.
Proof.
  induction watch_remnants as [|watch rest IH]; intros prices (w & Hw & Hcode & Hs).
  - by apply elem_of_nil in Hw.
  - simpl. fold (code_of watch).
    destruct (decide (code_of watch ∈ offer_ids)) as [Hin|Hout].
    + destruct (dict_get watch "Цена") as [|s|z|f] eqn:Hprice; [done| |done|done].
      rewrite price_conversion_str. simpl. apply IH.
      apply elem_of_cons in Hw as [->|Hw]; [by destruct (Hs s)|].
      by exists w.
    + apply IH. apply elem_of_cons in Hw as [->|Hw]; [done|]. by exists w.
Qed.

(** X8. [create_prices] raises exactly when some feed row whose code is
    in the offer_id list has a price that is not a string (the key may
    be missing, or the cell may hold a number), and then it raises
    [AttributeError]; rows whose code is not in the list are never
    converted. *)
Theorem create_prices_raises_iff_bad_price
    (watch_remnants : list row) (offer_ids : list string) (e : exn) :
  create_prices watch_remnants offer_ids = Raise e <->
  e = AttributeError /\
  exists watch, watch ∈ watch_remnants /\ code_of watch ∈ offer_ids /\
                forall s, dict_get watch "Цена" <> PStr s.
Proof.
  unfold create_prices. split.
  - apply prices_loop_Raise.
  - intros [-> Hbad]. by apply prices_loop_bad_price.
Qed.

Lemma create_prices_raises_iff_bad_price_witness :
  create_prices
    [feed_row (PStr "a") (PStr "1") (PStr "10.00");
     <["Код" := PStr "b"]> ∅]
    ["a"; "b"] = Raise AttributeError.
Proof.
  apply (create_prices_raises_iff_bad_price
           [feed_row (PStr "a") (PStr "1") (PStr "10.00");
            <["Код" := PStr "b"]> ∅]
           ["a"; "b"] AttributeError).
  split; [done|].
  exists (<["Код" := PStr "b"]> ∅).
  split; [right; left|].
  split; [apply (bool_decide_unpack _); vm_compute; exact I|].
  intros s. vm_compute. discriminate.
Defined.

Lemma prices_loop_same_members (offer_ids offer_ids' : list string)
    (watch_remnants : list row) :
  (forall o, o ∈ offer_ids <-> o ∈ offer_ids') ->
  forall prices,
    prices_loop watch_remnants prices offer_ids
    = prices_loop watch_remnants prices offer_ids'.
Proof.
  intros Hsame. induction watch_remnants as [|watch rest IH]; intros prices;
    simpl; [done|].
  destruct (decide (py_str (dict_get watch "Код") ∈ offer_ids)) as [Hin|Hout].
  - rewrite decide_True by (by apply Hsame).
    destruct (price_conversion _); simpl; [apply IH | done].
  - rewrite decide_False by (by rewrite <- Hsame). apply IH.
Qed.

(** X9. [create_prices] uses its offer_id list only as a set: two lists
    with the same members, whatever their order and repetitions, give the
    same result, and the list itself is not changed. *)
Theorem create_prices_depends_on_members_only
    (watch_remnants : list row) (offer_ids offer_ids' : list string) :
  (forall o, o ∈ offer_ids <-> o ∈ offer_ids') ->
  create_prices watch_remnants offer_ids = create_prices watch_remnants offer_ids'.
Proof. intros Hsame. by apply prices_loop_same_members. Qed.

Lemma create_prices_depends_on_members_only_witness :
  create_prices demo_feed ["b"; "123"; "b"] = create_prices demo_feed ["123"; "b"].
Proof.
  apply (create_prices_depends_on_members_only demo_feed ["b"; "123"; "b"] ["123"; "b"]).
  intros o. rewrite !elem_of_cons, !elem_of_nil. tauto.
Defined.

Lemma prices_loop_records (offer_ids : list string) (watch_remnants : list row) :
  forall prices out,
    prices_loop watch_remnants prices offer_ids = Ok out ->
    exists new,
      out = prices ++ new /\
      (length new <= length watch_remnants)%nat /\
      Forall (fun p => all_digits (price p) = true /\
                       price_offer_id p ∈ offer_ids /\
                       auto_action_enabled p = "UNKNOWN" /\
                       currency_code p = "RUB" /\
                       old_price p = "0") new.
Proof.
  induction watch_remnants as [|watch rest IH]; intros prices out Hrun;
    simpl in Hrun.
  - inversion Hrun; subst. exists []. rewrite app_nil_r.
    split; [done|]. split; [done | constructor].
  - destruct (decide (py_str (dict_get watch "Код") ∈ offer_ids)) as [Hin|Hout].
    + destruct (dict_get watch "Цена") as [|s|z|f]; [done| |done|done].
      rewrite price_conversion_str in Hrun. simpl in Hrun.
      apply IH in Hrun as (new & -> & Hlen & Hnew).
      eexists (_ :: new). split; [by rewrite <- app_assoc|].
      split; [simpl; lia|].
      constructor; [|done]. simpl. repeat split; try done.
      unfold truncate_then_strip. rewrite <- re_sub_non_digits_digits_of.
      apply re_sub_non_digits_all_digits.
    + apply IH in Hrun as (new & -> & Hlen & Hnew).
      exists new. split; [done|]. split; [simpl; lia | done].
Qed.

(** X10. Every record [create_prices] returns has a price made of
    digits only (possibly none), an offer_id that is in the offer_id
    list, and the three constant fields; there are at most as many
    records as feed rows. *)
Theorem create_prices_records_well_formed
    (watch_remnants : list row) (offer_ids : list string)
    (prices : list price_update) :
  create_prices watch_remnants offer_ids = Ok prices ->
  (length prices <= length watch_remnants)%nat /\
  Forall (fun p => all_digits (price p) = true /\
                   price_offer_id p ∈ offer_ids /\
                   auto_action_enabled p = "UNKNOWN" /\
                   currency_code p = "RUB" /\
                   old_price p = "0") prices.
Proof.
  unfold create_prices. intros Hrun.
  apply prices_loop_records in Hrun as (new & -> & Hlen & Hnew). by split.
Qed.

Lemma create_prices_records_well_formed_witness :
  (length [{| auto_action_enabled := "UNKNOWN"; currency_code := "RUB";
              price_offer_id := "123"; old_price := "0"; price := "5990" |}]
   <= length demo_feed)%nat /\
  Forall (fun p => all_digits (price p) = true /\
                   price_offer_id p ∈ ["123"; "b"] /\
                   auto_action_enabled p = "UNKNOWN" /\
                   currency_code p = "RUB" /\
                   old_price p = "0")
    [{| auto_action_enabled := "UNKNOWN"; currency_code := "RUB";
        price_offer_id := "123"; old_price := "0"; price := "5990" |}].
Proof.
  apply (create_prices_records_well_formed demo_feed ["123"; "b"]).
  vm_compute. reflexivity.
Defined.

Lemma all_digits_no_dot (d : string) :
  all_digits d = true -> truncate_at_first_dot d = d.
Proof.
  induction d as [|c d IH]; simpl; [done|].
  intros [Hc Hd]%andb_prop.
  destruct (Ascii.eqb_spec c "."); [by subst|].
  by rewrite IH.
Qed.

Lemma all_digits_kept (d : string) :
  all_digits d = true -> re_sub_non_digits d = d.
Proof.
  induction d as [|c d IH]; simpl; [done|].
  intros [Hc Hd]%andb_prop. by rewrite Hc, IH.
Qed.

Lemma truncate_at_first_dot_app (s t : string) :
  truncate_at_first_dot (s ++ String "." t) = truncate_at_first_dot s.
Proof.
  induction s as [|c s IH]; simpl; [done|].
  destruct (Ascii.eqb c "."); [done | by rewrite IH].
Qed.

(** X11. [price_conversion] is idempotent: converting a price it has
    returned gives that price back. *)
Theorem price_conversion_idempotent (s d : string) :
  price_conversion (PStr s) = Ok d -> price_conversion (PStr d) = Ok d.
Proof.
  rewrite !price_conversion_str. intros Hd.
  assert (all_digits d = true) as Hdigits.
  { inversion Hd. unfold truncate_then_strip.
    rewrite <- re_sub_non_digits_digits_of. apply re_sub_non_digits_all_digits. }
  unfold truncate_then_strip.
  rewrite all_digits_no_dot by done.
  by rewrite <- re_sub_non_digits_digits_of, all_digits_kept.
Qed.

Lemma price_conversion_idempotent_witness :
  price_conversion (PStr "5990") = Ok "5990".
Proof.
  apply (price_conversion_idempotent "5'990.00 руб." "5990").
  reflexivity.
Defined.

(** X12. Whatever follows the first ['.'] has no effect: a price with a
    dot and any text appended converts to the same result as the price
    alone. *)
Theorem price_conversion_ignores_after_dot (s t : string) :
  price_conversion (PStr (s ++ String "." t)) = price_conversion (PStr s).
Proof.
  rewrite !price_conversion_str. unfold truncate_then_strip.
  by rewrite truncate_at_first_dot_app.
Qed.

(** ** Quantities read as numbers *)

Lemma lstrip_no_space (l : list ascii) :
  Forall (fun c => is_space c = false) l -> lstrip l = l.
Proof. destruct 1 as [|c l Hc Hl]; simpl; [done | by rewrite Hc]. Qed.

Lemma strip_no_space (l : list ascii) :
  Forall (fun c => is_space c = false) l -> strip l = l.
Proof.
  intros Hl. unfold strip.
  rewrite (lstrip_no_space l Hl).
  rewrite lstrip_no_space by (by apply List.Forall_rev).
  apply rev_involutive.
Qed.

Lemma uint_chars_no_space (d : Decimal.uint) :
  Forall (fun c => is_space c = false)
    (list_ascii_of_string (NilEmpty.string_of_uint d)).
Proof. induction d; simpl; by constructor. Qed.

Lemma digits_value_acc (d : Decimal.uint) :
  forall p : positive,
    digits_value (Z.pos p) true (list_ascii_of_string (NilEmpty.string_of_uint d))
    = Some (Z.pos (Pos.of_uint_acc d p)).
Proof.
  induction d as [|d IH|d IH|d IH|d IH|d IH|d IH|d IH|d IH|d IH|d IH];
    intros p; [done|..];
    cbn [NilEmpty.string_of_uint list_ascii_of_string digits_value Pos.of_uint_acc];
    change (is_digit _) with true; cbn iota;
    rewrite <- IH; f_equal;
    match goal with
    | |- context [digit_val ?c] =>
        let v := eval vm_compute in (digit_val c) in change (digit_val c) with v
    end; lia.
Qed.

Lemma digits_value_uint (d : Decimal.uint) :
  forall seen : bool,
    d <> Decimal.Nil \/ seen = true ->
    digits_value 0 seen (list_ascii_of_string (NilEmpty.string_of_uint d))
    = Some (Z.of_N (Pos.of_uint d)).
Proof.
  induction d as [|d IH|d IH|d IH|d IH|d IH|d IH|d IH|d IH|d IH|d IH];
    intros seen Hseen;
    [ destruct Hseen as [Hnil | ->]; done
    | cbn [NilEmpty.string_of_uint list_ascii_of_string digits_value Pos.of_uint];
      change (is_digit _) with true; cbn iota; apply IH; by right
    | cbn [NilEmpty.string_of_uint list_ascii_of_string digits_value Pos.of_uint];
      change (is_digit _) with true; cbn iota; cbn [Z.of_N];
      rewrite <- digits_value_acc; reflexivity .. ].
Qed.

Lemma uint_chars_ascii (d : Decimal.uint) :
  Forall (fun c => (N_of_ascii c <? 127)%N = true)
    (list_ascii_of_string (NilEmpty.string_of_uint d)).
Proof. induction d; simpl; by constructor. Qed.

(** On a text of characters below 127, [int] parses the text itself. *)
Lemma int_image_ascii (cs : list ascii) :
  Forall (fun c => (N_of_ascii c <? 127)%N = true) cs ->
  int_image <$> code_points cs = cs.
Proof.
  induction 1 as [|c cs Hc Hcs IH]; [done|].
  cbn [code_points].
  assert ((N_of_ascii c <? 128)%N = true) as ->.
  { apply N.ltb_lt. apply N.ltb_lt in Hc. lia. }
  rewrite fmap_cons, IH. f_equal.
  unfold int_image. rewrite Hc. apply ascii_N_embedding.
Qed.

Lemma int_of_ascii_uint (d : Decimal.uint) :
  int_of_ascii (list_ascii_of_string (NilZero.string_of_uint d))
  = Some (Z.of_uint d).
Proof.
  unfold Z.of_uint.
  destruct d; try done; unfold int_of_ascii, NilZero.string_of_uint;
    rewrite strip_no_space by apply uint_chars_no_space;
    rewrite <- (digits_value_uint _ false) by (by left); reflexivity.
Qed.

Lemma digits_value_nilzero (d : Decimal.uint) :
  digits_value 0 false (list_ascii_of_string (NilZero.string_of_uint d))
  = Some (Z.of_uint d).
Proof.
  unfold Z.of_uint. destruct d; try done; unfold NilZero.string_of_uint;
    apply digits_value_uint; by left.
Qed.

Lemma nilzero_chars_ascii (d : Decimal.uint) :
  Forall (fun c => (N_of_ascii c <? 127)%N = true)
    (list_ascii_of_string (NilZero.string_of_uint d)).
Proof. destruct d; try apply uint_chars_ascii. by repeat constructor. Qed.

Lemma int_of_string_of_int (i : Decimal.int) :
  int_of_string (NilZero.string_of_int i) = Some (Z.of_int i).
Proof.
  unfold int_of_string. destruct i as [d|d]; simpl.
  - rewrite int_image_ascii by apply nilzero_chars_ascii.
    apply int_of_ascii_uint.
  - rewrite int_image_ascii by apply nilzero_chars_ascii.
    change (int_image _) with "-"%char.
    unfold int_of_ascii. rewrite strip_no_space.
    + by rewrite digits_value_nilzero.
    + constructor; [done|].
      destruct d; try apply uint_chars_no_space. by repeat constructor.
Qed.

Lemma int_of_string_py_str (z : Z) :
  int_of_string (py_str (PInt z)) = Some z.
Proof. simpl. by rewrite int_of_string_of_int, DecimalZ.of_to. Qed.

(** X13. [int(str(z))] is [z] for every integer, so a quantity that
    pandas read as the number [z] and one read as the text of [z] get the
    same stock: [z] itself, except that 1 gives 0. *)
Theorem stock_of_number_and_its_text (z : Z) :
  py_int (PStr (py_str (PInt z))) = Ok z /\
  stock_of (PStr (py_str (PInt z))) = stock_of (PInt z) /\
  stock_of (PInt z) = Ok (if z =? 1 then 0 else z).
Proof.
  pose proof (int_of_string_py_str z) as Hround.
  split; [by simpl in *; rewrite Hround|].
  split.
  - unfold stock_of. cbn [py_str].
    destruct (String.eqb _ ">10"); [done|].
    destruct (String.eqb _ "1"); [done|].
    simpl in *. by rewrite Hround.
  - unfold stock_of.
    destruct (String.eqb_spec (py_str (PInt z)) ">10") as [H10|_].
    { rewrite H10 in Hround. discriminate Hround. }
    destruct (String.eqb_spec (py_str (PInt z)) "1") as [H1|Hn1].
    { rewrite H1 in Hround. by inversion Hround. }
    simpl. destruct (Z.eqb_spec z 1) as [->|_]; [by destruct Hn1 | done].
Qed.

(** ** [download_stock]: what stays in the working directory *)

(** X14. After the extraction [download_stock] changes nothing in the
    working directory but the spreadsheet: every other file is as the
    extraction left it, whatever the outcome.  When it returns rows, the
    extraction had succeeded, the rows are the parse of the spreadsheet
    found after the extraction, and the directory is what the extraction
    left minus that file; when it raises, the directory is exactly what
    the extraction left, partial extraction included. *)
Theorem download_stock_leaves_other_files
    (w : world) (st st' : state) (content : string)
    (outcome : result unit) (extracted : gmap string string)
    (r : result (list row)) :
  casio_get w = Ok content ->
  zip_extractall w content (files st) = (outcome, extracted) ->
  download_stock w st = (r, st') ->
  (forall name, name <> excel_file -> files st' !! name = extracted !! name) /\
  match r with
  | Ok rows =>
      outcome = Ok tt /\
      files st' = delete excel_file extracted /\
      exists sheet, extracted !! excel_file = Some sheet /\
                    read_excel w sheet = Ok rows
  | Raise e => files st' = extracted
  end.
Proof.
  intros Hget Hzip.
  unfold download_stock, pbind, lift, extractall, open_file, os_remove, ret.
  rewrite Hget, Hzip. simpl.
  destruct outcome as [[]|e]; [|by inversion 1].
  destruct (extracted !! excel_file) as [sheet|] eqn:Hsheet; simpl;
    [|by inversion 1].
  destruct (read_excel w sheet) as [rows|e] eqn:Hparse; [|by inversion 1].
  simpl. rewrite Hsheet. inversion 1; subst; simpl. split.
  - intros name Hname. by rewrite lookup_delete_ne.
  - split; [done|]. split; [done|]. by exists sheet.
Qed.

Lemma download_stock_leaves_other_files_witness :
  exists st',
    download_stock bad_sheet_world
      {| files := <["old.log" := "kept"]> ∅; trace := [] |}
    = (Raise (OtherError "unsupported format"), st') /\
    files st' !! "old.log" = Some "kept" /\
    files st' !! "readme.txt" = Some "notes".
Proof.
  destruct (download_stock bad_sheet_world
              {| files := <["old.log" := "kept"]> ∅; trace := [] |})
    as [r st'] eqn:Hrun.
  destruct (download_stock_leaves_other_files bad_sheet_world
              {| files := <["old.log" := "kept"]> ∅; trace := [] |}
              st' "zip" (Ok tt)
              (<["ostatki.xls" := "garbage"]>
                 (<["readme.txt" := "notes"]> (<["old.log" := "kept"]> ∅)))
              r eq_refl eq_refl Hrun) as [Hkept _].
  assert (r = Raise (OtherError "unsupported format")) as ->.
  { pose proof Hrun as Hr. vm_compute in Hr. injection Hr as Hr _. by rewrite <- Hr. }
  exists st'. split; [reflexivity|].
  split; (rewrite Hkept; [reflexivity | discriminate]).
Defined.

(** ** The upload loops and [main] *)

(** A loop that sends each batch and then checks the answer. *)
Lemma for_each_post_fails {A} (api : A -> result unit) (ev : A -> event)
    (sent : list A) (bad : A) (rest : list A) (e : exn) :
  Forall (fun b => api b = Ok tt) sent ->
  api bad = Raise e ->
  forall st,
    for_each (fun b => let+ _ := emit (ev b) in lift (api b))
      (sent ++ bad :: rest) st
    = (Raise e, {| files := files st;
                   trace := trace st ++ (ev <$> sent ++ [bad]) |}).
Proof.
  intros Hsent Hbad. induction Hsent as [|b sent Hb Hsent IH]; intros st; simpl.
  - unfold pbind, emit, lift. simpl. by rewrite Hbad.
  - unfold pbind at 1. unfold pbind at 1. unfold emit at 1. unfold lift at 1.
    rewrite Hb. rewrite IH. simpl. by rewrite <- app_assoc.
Qed.

Lemma for_each_post_trace {A} (api : A -> result unit) (ev : A -> event)
    (batches : list A) :
  forall st r st',
    for_each (fun b => let+ _ := emit (ev b) in lift (api b)) batches st = (r, st') ->
    files st' = files st /\
    exists posted,
      trace st' = trace st ++ (ev <$> posted) /\
      ((exists u, r = Ok u) -> posted = batches /\ Forall (fun b => api b = Ok tt) batches).
Proof.
  induction batches as [|b batches IH]; intros st r st' Hrun; simpl in Hrun.
  - inversion Hrun; subst. split; [done|]. exists []. rewrite app_nil_r.
    split; [done|]. intros _. by split.
  - unfold pbind at 1 in Hrun. unfold pbind at 1 in Hrun.
    unfold emit at 1 in Hrun. unfold lift at 1 in Hrun.
    destruct (api b) as [[]|e] eqn:Hb.
    + apply IH in Hrun as (Hfiles & posted & Htrace & Hok). simpl in *.
      split; [done|]. exists (b :: posted).
      split; [by rewrite Htrace, <- app_assoc|].
      intros Hr. destruct (Hok Hr) as [-> Hall]. split; [done|]. by constructor.
    + inversion Hrun; subst. simpl. split; [done|]. exists [b].
      split; [done|]. by intros [u Hu].
Qed.

(** X16. The upload loops stop at the first batch the marketplace
    refuses: the batches before it and the refused one have been sent,
    none of the later ones is, and the exception leaves the loop; nothing
    is sent twice.  This holds for the stock loop and for the price
    loop. *)
Theorem upload_loop_stops_at_first_failure (w : world) (st : state) (e : exn) :
  (forall sent bad rest,
      Forall (fun b => stocks_api w b = Ok tt) sent ->
      stocks_api w bad = Raise e ->
      for_each (update_stocks w) (sent ++ bad :: rest) st
      = (Raise e, {| files := files st;
                     trace := trace st ++ (PostStocks <$> sent ++ [bad]) |})) /\
  (forall sent bad rest,
      Forall (fun b => prices_api w b = Ok tt) sent ->
      prices_api w bad = Raise e ->
      for_each (update_price w) (sent ++ bad :: rest) st
      = (Raise e, {| files := files st;
                     trace := trace st ++ (PostPrices <$> sent ++ [bad]) |})).
Proof.
  split; intros sent bad rest Hsent Hbad.
  - exact (for_each_post_fails (stocks_api w) PostStocks sent bad rest e Hsent Hbad st).
  - exact (for_each_post_fails (prices_api w) PostPrices sent bad rest e Hsent Hbad st).
Qed.

Lemma upload_loop_stops_at_first_failure_witness :
  for_each
    (update_stocks
       {| product_list_api := one_page []; casio_get := Ok "zip";
          zip_extractall := fun _ fs => (Ok tt, fs);
          read_excel := fun _ => Ok [];
          stocks_api := fun b => if decide (length b = 1%nat) then Ok tt
                                 else Raise HTTPError;
          prices_api := fun _ => Ok tt |})
    ([[zero_stock "a"]] ++ [] :: [[zero_stock "b"]]) empty_state
  = (Raise HTTPError,
     {| files := ∅;
        trace := [PostStocks [zero_stock "a"]; PostStocks []] |}).
Proof.
  destruct (upload_loop_stops_at_first_failure
              {| product_list_api := one_page []; casio_get := Ok "zip";
                 zip_extractall := fun _ fs => (Ok tt, fs);
                 read_excel := fun _ => Ok [];
                 stocks_api := fun b => if decide (length b = 1%nat) then Ok tt
                                        else Raise HTTPError;
                 prices_api := fun _ => Ok tt |}
              empty_state HTTPError) as [Hstocks _].
  apply (Hstocks [[zero_stock "a"]] [] [[zero_stock "b"]]).
  - by repeat constructor.
  - reflexivity.
Defined.

(** X17. With [divide] as it is in the source, every run of [main]
    that comes back from the catalog fetch ends in one of the [except]
    clauses: it sends no update at all and prints exactly one message.
    When the fetch itself raises, nothing is downloaded and the message
    is the one of the clause for that exception. *)
Theorem main_always_ends_in_except (w : world) (fuel : nat) (st : state) :
  match main w fuel st with
  | Some st' => exists e, trace st' = trace st ++ [Printed (handler_message e)]
  | None => get_offer_ids (product_list_api w) fuel = None
  end /\
  (forall e,
      get_offer_ids (product_list_api w) fuel = Some (Raise e) ->
      main w fuel st
      = Some {| files := files st;
                trace := trace st ++ [Printed (handler_message e)] |}).
Proof.
  unfold main, main_with. split.
  - destruct (get_offer_ids (product_list_api w) fuel) as [[offer_ids|e]|];
      [| |done].
    + unfold try_except, pbind, lift.
      destruct (main_flows_raises w offer_ids st) as (e & st' & -> & Htrace).
      exists e. simpl. by rewrite Htrace.
    + by exists e.
  - intros e ->. reflexivity.
Qed.

(** X18. With [divide] as it is in the source, [upload_prices] and
    [upload_stocks] never return: once the catalog is fetched they
    raise, having sent nothing and changed nothing. *)
Theorem uploads_never_return (w : world) (fuel : nat) (watch_remnants : list row)
    (st : state) :
  match upload_prices w fuel watch_remnants with
  | Some run => (exists e, fst (run st) = Raise e) /\ snd (run st) = st
  | None => get_offer_ids (product_list_api w) fuel = None
  end /\
  match upload_stocks w fuel watch_remnants with
  | Some run => (exists e, fst (run st) = Raise e) /\ snd (run st) = st
  | None => get_offer_ids (product_list_api w) fuel = None
  end.
Proof.
  unfold upload_prices, upload_prices_with, upload_stocks, upload_stocks_with.
  destruct (get_offer_ids (product_list_api w) fuel) as [[offer_ids|e]|];
    [| |done].
  - unfold pbind, lift, call_create_stocks. simpl. split.
    + destruct (create_prices watch_remnants offer_ids); simpl; split; by eauto.
    + destruct (create_stocks watch_remnants offer_ids) as [[stocks|e] ids'];
        simpl; split; by eauto.
  - unfold pbind, lift. simpl. split; split; by eauto.
Qed.

Lemma main_flows_order
    (divide_impl : forall A : Type, list A -> Z -> returned (list A))
    (w : world) (offer_ids : list string) (st st' : state) (r : result unit) :
  main_flows divide_impl w offer_ids st = (r, st') ->
  exists stock_batches price_batches,
    trace st' = trace st ++ (PostStocks <$> stock_batches)
                         ++ (PostPrices <$> price_batches) /\
    (price_batches <> [] ->
     Forall (fun b => stocks_api w b = Ok tt) stock_batches).
Proof.
  unfold main_flows, pbind. intros Hrun.
  destruct (download_stock w st) as [[watch_remnants|e] st1] eqn:Hdl;
    apply download_stock_trace in Hdl.
  2: { inversion Hrun; subst. exists [], []. by rewrite Hdl, app_nil_r. }
  unfold call_create_stocks in Hrun.
  destruct (create_stocks watch_remnants offer_ids) as [[stocks|e] ids'].
  2: { inversion Hrun; subst. exists [], []. by rewrite Hdl, app_nil_r. }
  simpl in Hrun.
  destruct (py_list (divide_impl stock_update stocks 100)) as [sb|e].
  2: { inversion Hrun; subst. exists [], []. by rewrite Hdl, app_nil_r. }
  simpl in Hrun.
  destruct (for_each (update_stocks w) sb st1) as [r1 st2] eqn:Hstocks.
  pose proof (for_each_post_trace (stocks_api w) PostStocks sb st1 r1 st2 Hstocks)
    as (_ & posted & Htrace2 & Hok).
  destruct r1 as [[]|e].
  2: { inversion Hrun; subst. exists posted, [].
       split; [by rewrite Htrace2, Hdl, app_nil_r | done]. }
  destruct Hok as [-> Hall]; [by eexists|].
  destruct (create_prices watch_remnants ids') as [prices|e]; simpl in Hrun.
  2: { inversion Hrun; subst. exists sb, [].
       split; [by rewrite Htrace2, Hdl, app_nil_r | done]. }
  destruct (py_list (divide_impl price_update prices 900)) as [pb|e];
    simpl in Hrun.
  2: { inversion Hrun; subst. exists sb, [].
       split; [by rewrite Htrace2, Hdl, app_nil_r | done]. }
  pose proof (for_each_post_trace (prices_api w) PostPrices pb st2 r st' Hrun)
    as (_ & posted & Htrace3 & _).
  exists sb, posted. split; [|done].
  by rewrite Htrace3, Htrace2, Hdl, app_assoc.
Qed.

(** X19. Whatever [divide] returns: in a run of [main] the stock
    uploads all come before the price uploads, a price upload is sent
    only after every stock upload was accepted, and the run ends either
    silently or with one message of an [except] clause as its last
    event. *)
Theorem main_uploads_stocks_before_prices
    (divide_impl : forall A : Type, list A -> Z -> returned (list A))
    (w : world) (fuel : nat) (st st' : state) :
  main_with divide_impl w fuel st = Some st' ->
  exists stock_batches price_batches tail,
    trace st' = trace st ++ (PostStocks <$> stock_batches)
                         ++ (PostPrices <$> price_batches) ++ tail /\
    (tail = [] \/ exists e, tail = [Printed (handler_message e)]) /\
    (price_batches <> [] ->
     Forall (fun b => stocks_api w b = Ok tt) stock_batches).
Proof.
  unfold main_with.
  destruct (get_offer_ids (product_list_api w) fuel) as [[offer_ids|e]|];
    [| |done].
  - unfold try_except, pbind, lift. intros Hrun.
    destruct (main_flows divide_impl w offer_ids st) as [r st1] eqn:Hflows.
    apply main_flows_order in Hflows as (sb & pb & Htrace & Hok).
    destruct r as [[]|e]; inversion Hrun; subst; clear Hrun.
    + exists sb, pb, []. split; [by rewrite Htrace, app_nil_r|].
      split; [by left | done].
    + exists sb, pb, [Printed (handler_message e)]. simpl.
      split; [by rewrite Htrace, <- !app_assoc|].
      split; [right; by eexists | done].
  - unfold try_except, pbind, lift. simpl. intros Hrun.
    inversion Hrun; subst; clear Hrun.
    exists [], [], [Printed (handler_message e)].
    split; [done|]. split; [right; by eexists | done].
Qed.

Lemma main_uploads_stocks_before_prices_witness :
  exists stock_batches price_batches tail,
    [PostStocks [{| offer_id := "123"; stock := 5 |}; {| offer_id := "123"; stock := 0 |}];
     PostPrices [{| auto_action_enabled := "UNKNOWN"; currency_code := "RUB";
                    price_offer_id := "123"; old_price := "0"; price := "5990" |}]]
    = [] ++ (PostStocks <$> stock_batches) ++ (PostPrices <$> price_batches) ++ tail /\
    (tail = [] \/ exists e, tail = [Printed (handler_message e)]) /\
    (price_batches <> [] ->
     Forall (fun b => stocks_api (demo_world ["123"; "123"] demo_feed) b = Ok tt)
       stock_batches).
Proof.
  apply (main_uploads_stocks_before_prices (@divide_documented)
           (demo_world ["123"; "123"] demo_feed) 1 empty_state
           {| files := ∅;
              trace := [PostStocks [{| offer_id := "123"; stock := 5 |};
                                    {| offer_id := "123"; stock := 0 |}];
                        PostPrices [{| auto_action_enabled := "UNKNOWN";
                                       currency_code := "RUB";
                                       price_offer_id := "123";
                                       old_price := "0"; price := "5990" |}]] |}).
  vm_compute. reflexivity.
Defined.

Lemma download_stock_parse_error
    (w : world) (st : state) (content sheet : string)
    (extracted : gmap string string) (e : exn) :
  casio_get w = Ok content ->
  zip_extractall w content (files st) = (Ok tt, extracted) ->
  extracted !! excel_file = Some sheet ->
  read_excel w sheet = Raise e ->
  exists st', download_stock w st = (Raise e, st') /\
              files st' !! excel_file = Some sheet /\
              trace st' = trace st.
Proof.
  intros Hget Hzip Hfile Hparse.
  unfold download_stock, pbind, lift, extractall. rewrite Hget, Hzip.
  unfold open_file. simpl. rewrite Hfile, Hparse.
  eexists. split; [reflexivity|]. by split.
Qed.

(** X20. When the spreadsheet found after the extraction cannot be
    parsed, [main] catches the exception, prints the message of the
    matching [except] clause and sends no update; the spreadsheet is
    still in the working directory when [main] is over.  This does not
    depend on what [divide] returns. *)
Theorem main_leaves_sheet_after_parse_error
    (divide_impl : forall A : Type, list A -> Z -> returned (list A))
    (w : world) (fuel : nat) (st : state) (offer_ids : list string)
    (content sheet : string) (extracted : gmap string string) (e : exn) :
  get_offer_ids (product_list_api w) fuel = Some (Ok offer_ids) ->
  casio_get w = Ok content ->
  zip_extractall w content (files st) = (Ok tt, extracted) ->
  extracted !! excel_file = Some sheet ->
  read_excel w sheet = Raise e ->
  exists st',
    main_with divide_impl w fuel st = Some st' /\
    files st' !! excel_file = Some sheet /\
    trace st' = trace st ++ [Printed (handler_message e)].
Proof.
  intros Hfetch Hget Hzip Hfile Hparse.
  destruct (download_stock_parse_error w st content sheet extracted e
              Hget Hzip Hfile Hparse) as (st1 & Hdl & Hsheet & Htrace).
  unfold main_with. rewrite Hfetch.
  unfold try_except, pbind, lift, main_flows, pbind. rewrite Hdl. simpl.
  eexists. split; [done|]. simpl. by rewrite Htrace.
Qed.

Lemma main_leaves_sheet_after_parse_error_witness :
  exists st',
    main bad_sheet_world 1 empty_state = Some st' /\
    files st' !! excel_file = Some "garbage" /\
    trace st' = trace empty_state
                ++ [Printed (handler_message (OtherError "unsupported format"))].
Proof.
  apply (main_leaves_sheet_after_parse_error (@divide) bad_sheet_world 1 empty_state
           ["123"] "zip" "garbage"
           (<["ostatki.xls" := "garbage"]> (<["readme.txt" := "notes"]> ∅)));
    reflexivity.
Defined.
